(** * Profit-curve analysis of the rider-churn notebook

    A shallow embedding of the code cells of
    [Uber_Rider_Churn_cost_benefit.ipynb]:

    - [standard_confusion_matrix], [profit_curve] and
      [find_best_threshold], the three functions of the second code cell;
    - the module-level binding [costbenefit] of the first code cell;
    - the final classification [probabilities >= max_threshold].

    Probabilities, thresholds and profits are IEEE binary64 values, as
    numpy's [float64] is; they are modelled by the primitive floats of the
    Standard Library.  Labels and counts are numpy [int64] values,
    modelled by [Z] (no list handled here is long enough to wrap).
    Python exceptions are modelled by an error result. *)

From Stdlib Require Import ZArith List Bool Lia Permutation Sorted.
From Stdlib Require Import Uint63 Floats.
Import ListNotations.

Set Implicit Arguments.
Set Warnings "-inexact-float".

(** ** Python results *)

(** The first two exceptions are the ones the notebook's calls can raise.
    The last three are the error classes named by the specification; no
    path of the code raises them. *)
Inductive exn : Set :=
| ValueError
| IndexError
| ShapeMismatch
| InvalidLabel
| EmptyInputError.

Inductive result (A : Type) : Type :=
| Ok (a : A)
| Raise (e : exn).

Arguments Ok {A} a.
Arguments Raise {A} e.

Definition bind {A B : Type} (r : result A) (k : A -> result B) : result B :=
  match r with
  | Ok a => k a
  | Raise e => Raise e
  end.

Notation "x <- r ;; k" := (bind r (fun x => k))
  (at level 61, r at next level, right associativity).

(** ** Numeric values *)

(** A 2x2 numpy array, cell [aRC] at row [R] and column [C]. *)
Record array2x2 (A : Type) : Type := Array2x2 {
  a00 : A; a01 : A;
  a10 : A; a11 : A
}.

(** Conversion of an [int64] to a [float64] (numpy's cast, Python's
    [float(...)]), for the values of an [int64], from -2^63 to 2^63 - 1.
    The least of them has no opposite among the 63-bit integers and is
    converted apart. *)
Definition float_of_Z (z : Z) : float :=
  if (z =? -9223372036854775808)%Z
  then (-9223372036854775808)%float
  else if (z <? 0)%Z
  then PrimFloat.opp (PrimFloat.of_uint63 (Uint63.of_Z (- z)))
  else PrimFloat.of_uint63 (Uint63.of_Z z).

(** numpy's elementwise comparisons of a float with a float. *)
Definition np_gt (p t : float) : bool := PrimFloat.ltb t p.
Definition np_ge (p t : float) : bool := PrimFloat.leb t p.
Definition np_eq (p t : float) : bool := PrimFloat.eqb p t.

(** ** Library functions *)

(** [sklearn.utils.multiclass.unique_labels]: the distinct values that
    occur in either vector, in increasing order. *)
Fixpoint insert_label (x : Z) (ls : list Z) : list Z :=
  match ls with
  | [] => [x]
  | y :: ls' =>
      if (x <? y)%Z then x :: ls
      else if (x =? y)%Z then ls
      else y :: insert_label x ls'
  end.

Definition unique_labels (y_true y_pred : list Z) : list Z :=
  fold_right insert_label [] (y_true ++ y_pred).

(** Number of observations whose true label is [a] and whose predicted
    label is [b]. *)
Definition count_pairs (a b : Z) (obs : list (Z * Z)) : Z :=
  Z.of_nat (length (filter (fun yp => (fst yp =? a)%Z && (snd yp =? b)%Z) obs)).

(** [sklearn.metrics.confusion_matrix(y_true, y_pred)] with its default
    [labels=None]: vectors of different lengths are refused with a
    [ValueError]; otherwise row [i], column [j] counts the observations
    whose true label is the [i]-th distinct label and whose predicted label
    is the [j]-th.  The table has as many rows and columns as there are
    distinct labels in the two vectors together.  (On two empty vectors
    the library returns an empty table or raises [ValueError], depending on
    its version; both make the caller below raise [ValueError].) *)
Definition confusion_matrix (y_true y_pred : list Z) : result (list (list Z)) :=
  if Nat.eqb (length y_true) (length y_pred)
  then
    let labels := unique_labels y_true y_pred in
    Ok (map (fun i => map (fun j => count_pairs i j (combine y_true y_pred)) labels) labels)
  else Raise ValueError.

(** Python's [sorted(xs, reverse=True)] on floats: a stable sort into
    decreasing order that compares with [<] only.  It is written here as
    an insertion sort; on values that are not NaN the result of a stable
    sort does not depend on the algorithm. *)
Fixpoint insert_desc (x : float) (l : list float) : list float :=
  match l with
  | [] => [x]
  | y :: l' => if PrimFloat.ltb x y then y :: insert_desc x l' else x :: l
  end.

Definition sorted_reverse (xs : list float) : list float :=
  fold_right insert_desc [] xs.

(** [ndarray.sum()] of a float array: accumulation from the additive
    identity, in row-major order. *)
Definition np_sum (xs : list float) : float :=
  fold_left PrimFloat.add xs PrimFloat.zero.

(** [np.argmax] on floats: the first index holding the maximum; a NaN
    counts as the maximum; an empty sequence is refused. *)
Fixpoint argmax_from (mp : float) (max_ind i : nat) (xs : list float) : nat :=
  match xs with
  | [] => max_ind
  | x :: xs' =>
      if negb (PrimFloat.leb x mp)
      then if PrimFloat.is_nan x then i else argmax_from x i (S i) xs'
      else argmax_from mp max_ind (S i) xs'
  end.

Definition np_argmax (xs : list float) : result nat :=
  match xs with
  | [] => Raise ValueError
  | x :: xs' => if PrimFloat.is_nan x then Ok 0%nat else Ok (argmax_from x 0 1 xs')
  end.

(** [np.max] on floats ([np.maximum.reduce]): a NaN propagates; an empty
    sequence is refused.  Of two values that compare equal (-0.0 and
    +0.0) the running one is kept here, as numpy's scalar loop
    [io1 >= in2 ? io1 : in2] does; other builds of numpy keep the other
    one, so the general statements on the selected maximum take it up to
    [==] only. *)
Definition np_maximum (acc x : float) : float :=
  if PrimFloat.leb x acc || PrimFloat.is_nan acc then acc else x.

Definition np_max (xs : list float) : result float :=
  match xs with
  | [] => Raise ValueError
  | x :: xs' => Ok (fold_left np_maximum xs' x)
  end.

(** Indexing of a Python list. *)
Definition getitem {A : Type} (xs : list A) (i : nat) : result A :=
  match nth_error xs i with
  | Some x => Ok x
  | None => Raise IndexError
  end.

(** ** The notebook's functions *)

(** [standard_confusion_matrix(y_true, y_predict)]:
    [[[tn, fp], [fn, tp]] = confusion_matrix(y_true, y_predict)] followed
    by [np.array([[tp, fp], [fn, tn]])].  The unpacking raises
    [ValueError] unless the table has exactly two rows of two cells. *)
Definition standard_confusion_matrix (y_true y_predict : list Z)
  : result (array2x2 Z) :=
  m <- confusion_matrix y_true y_predict ;;
  match m with
  | [[tn; fp]; [fn; tp]] => Ok (Array2x2 tp fp fn tn)
  | _ => Raise ValueError
  end.

(** [cm.sum().sum()] *)
Definition cm_total (cm : array2x2 Z) : Z :=
  (a00 cm + a01 cm + a10 cm + a11 cm)%Z.

(** [probabilities > t], a boolean array. *)
Definition y_pred_at (probabilities : list float) (t : float) : list bool :=
  map (fun p => np_gt p t) probabilities.

(** A boolean array read as a label vector: [True] and [False] are the
    labels 1 and 0 (they compare and hash equal to them). *)
Definition bool_labels (bs : list bool) : list Z := map Z.b2z bs.

Section ModuleNamespace.

(** The module-level name [costbenefit], looked up when the body of
    [profit_curve] runs. *)
Variable costbenefit : array2x2 Z.

(** [(cm/num*costbenefit).flatten().sum()], line 98, for a given divisor
    [num]. *)
Definition normalized_profit (cm : array2x2 Z) (num : float) : float :=
  let cell (c b : Z) := PrimFloat.mul (PrimFloat.div (float_of_Z c) num) (float_of_Z b) in
  np_sum [cell (a00 cm) (a00 costbenefit); cell (a01 cm) (a01 costbenefit);
          cell (a10 cm) (a10 costbenefit); cell (a11 cm) (a11 costbenefit)].

(** [(cm/num*costbenefit).flatten().sum()] with
    [num = float(cm.sum().sum())]. *)
Definition expected_profit (cm : array2x2 Z) : float :=
  let num := float_of_Z (cm_total cm) in
  let cell (c b : Z) := PrimFloat.mul (PrimFloat.div (float_of_Z c) num) (float_of_Z b) in
  np_sum [cell (a00 cm) (a00 costbenefit); cell (a01 cm) (a01 costbenefit);
          cell (a10 cm) (a10 costbenefit); cell (a11 cm) (a11 costbenefit)].

(** The [for t in threshold] loop, [profit] being the list built so
    far. *)
Fixpoint profit_loop (probabilities : list float) (y_true : list Z)
    (threshold : list float) (profit : list float) : result (list float) :=
  match threshold with
  | [] => Ok profit
  | t :: threshold' =>
      let y_pred := y_pred_at probabilities t in
      cm <- standard_confusion_matrix y_true (bool_labels y_pred) ;;
      profit_loop probabilities y_true threshold' (profit ++ [expected_profit cm])
  end.

(** [profit_curve(cost_benefit_matrix, probabilities, y_true)] *)
Definition profit_curve (cost_benefit_matrix : array2x2 Z)
    (probabilities : list float) (y_true : list Z)
  : result (list float * list float) :=
  let threshold := sorted_reverse probabilities in
  profit <- profit_loop probabilities y_true threshold [] ;;
  Ok (threshold, profit).

End ModuleNamespace.

(** [costbenefit = np.array([[10, -10], [-5, 0]])], first code cell. *)
Definition costbenefit : array2x2 Z := (Array2x2 10 (-10) (-5) 0)%Z.

(** [find_best_threshold(thresholds, profits)] *)
Definition find_best_threshold (thresholds profits : list float)
  : result (float * float) :=
  max_index <- np_argmax profits ;;
  max_threshold <- getitem thresholds max_index ;;
  max_profit <- np_max profits ;;
  Ok (max_threshold, max_profit).

(** [y_test_pred = probabilities >= max_threshold], the classification
    reported with the chosen threshold. *)
Definition final_prediction (probabilities : list float) (max_threshold : float)
  : list bool :=
  map (fun p => np_ge p max_threshold) probabilities.

(** ** The order of binary64 values *)

(** A key that orders the values that are not NaN: the comparison of two
    such values is the lexicographic comparison of their keys. *)
Definition sf_key (s : spec_float) : Z * Z * Z :=
  match s with
  | S754_nan => (0, 0, 0)
  | S754_zero _ => (0, 0, 0)
  | S754_infinity true => (-2, 0, 0)
  | S754_infinity false => (2, 0, 0)
  | S754_finite false m e => (1, e, Zpos m)
  | S754_finite true m e => (-1, - e, Zneg m)
  end%Z.

Definition key_lt (k1 k2 : Z * Z * Z) : Prop :=
  let '(a1, b1, c1) := k1 in
  let '(a2, b2, c2) := k2 in
  (a1 < a2 \/ (a1 = a2 /\ (b1 < b2 \/ (b1 = b2 /\ c1 < c2))))%Z.

Definition key_eq (k1 k2 : Z * Z * Z) : Prop :=
  let '(a1, b1, c1) := k1 in
  let '(a2, b2, c2) := k2 in
  (a1 = a2 /\ b1 = b2 /\ c1 = c2)%Z.

Definition fkey (x : float) : Z * Z * Z := sf_key (Prim2SF x).

Definition not_nan (x : float) : Prop := PrimFloat.is_nan x = false.

(** Non-increasing order of a list of floats, checked on adjacent
    entries. *)
Fixpoint non_increasing (xs : list float) : bool :=
  match xs with
  | [] => true
  | x :: xs' =>
      match xs' with
      | [] => true
      | y :: _ => PrimFloat.leb y x && non_increasing xs'
      end
  end.

(** How two floats that are not NaN compare, with the answers of the
    three comparison operators in both directions. *)
Inductive float_cmp (x y : float) : Prop :=
| CmpLt : PrimFloat.ltb x y = true -> PrimFloat.leb x y = true -> PrimFloat.eqb x y = false ->
          PrimFloat.ltb y x = false -> PrimFloat.leb y x = false -> PrimFloat.eqb y x = false ->
          key_lt (fkey x) (fkey y) -> float_cmp x y
| CmpEq : PrimFloat.ltb x y = false -> PrimFloat.leb x y = true -> PrimFloat.eqb x y = true ->
          PrimFloat.ltb y x = false -> PrimFloat.leb y x = true -> PrimFloat.eqb y x = true ->
          key_eq (fkey x) (fkey y) -> float_cmp x y
| CmpGt : PrimFloat.ltb x y = false -> PrimFloat.leb x y = false -> PrimFloat.eqb x y = false ->
          PrimFloat.ltb y x = true -> PrimFloat.leb y x = true -> PrimFloat.eqb y x = false ->
          key_lt (fkey y) (fkey x) -> float_cmp x y.

Ltac key_lia :=
  unfold fkey in *;
  repeat match goal with
         | H : context [sf_key ?s] |- _ =>
             let a := fresh "a" in let b := fresh "b" in let c := fresh "c" in
             destruct (sf_key s) as [[a b] c]
         | |- context [sf_key ?s] =>
             let a := fresh "a" in let b := fresh "b" in let c := fresh "c" in
             destruct (sf_key s) as [[a b] c]
         end;
  unfold key_lt, key_eq in *; lia.

(** Label vectors over {0, 1}. *)
Definition binary_labels (ys : list Z) : Prop :=
  Forall (fun y => y = 0 \/ y = 1)%Z ys.

(** The profit appended by the sweep for threshold [t]. *)
Definition profit_at (costbenefit : array2x2 Z) (probabilities : list float)
    (y_true : list Z) (t p : float) : Prop :=
  exists cm,
    standard_confusion_matrix y_true (bool_labels (y_pred_at probabilities t)) = Ok cm /\
    p = expected_profit costbenefit cm.

(** The profit appended by the sweep for threshold [t], written with its
    divisor: line 98 evaluated on the matrix built at [t], divided by the
    conversion of the number of observations. *)
Definition divided_profit (costbenefit : array2x2 Z) (probabilities : list float)
    (y_true : list Z) (t p : float) : Prop :=
  exists cm,
    standard_confusion_matrix y_true (bool_labels (y_pred_at probabilities t)) = Ok cm /\
    cm_total cm = Z.of_nat (length probabilities) /\
    p = normalized_profit costbenefit cm (float_of_Z (Z.of_nat (length probabilities))).

(** ** The counting rules of the specification *)

(** Counts over index-aligned pairs (actual, predicted), as section 4.1 of
    the specification words them. *)
Definition true_positives (y_true y_predict : list Z) : Z :=
  count_pairs 1 1 (combine y_true y_predict).
Definition false_positives (y_true y_predict : list Z) : Z :=
  count_pairs 0 1 (combine y_true y_predict).
Definition false_negatives (y_true y_predict : list Z) : Z :=
  count_pairs 1 0 (combine y_true y_predict).
Definition true_negatives (y_true y_predict : list Z) : Z :=
  count_pairs 0 0 (combine y_true y_predict).

(** Number of observations a boolean prediction array flags positive. *)
Definition predicted_positives (y_pred : list bool) : nat :=
  length (filter (fun b => b) y_pred).

(** ** Facts on the order *)

Lemma SFcompare_key (a b : spec_float) :
  a <> S754_nan -> b <> S754_nan ->
  (SFcompare a b = Some Lt /\ key_lt (sf_key a) (sf_key b)) \/
  (SFcompare a b = Some Eq /\ key_eq (sf_key a) (sf_key b)) \/
  (SFcompare a b = Some Gt /\ key_lt (sf_key b) (sf_key a)).
Proof.
  intros Ha Hb.
  destruct a as [sa|sa| |sa ma ea]; try congruence;
  destruct b as [sb|sb| |sb mb eb]; try congruence;
  try destruct sa; try destruct sb; cbn;
  try (left; split; [reflexivity | lia]);
  try (right; left; split; [reflexivity | lia]);
  try (right; right; split; [reflexivity | lia]).
  - destruct (Z.compare_spec ea eb) as [He|He|He]; cbn.
    + fold (Pos.compare ma mb).
      destruct (Pos.compare_spec ma mb) as [Hm|Hm|Hm]; cbn.
      * right; left; split; [reflexivity | subst; lia].
      * right; right; split; [reflexivity | lia].
      * left; split; [reflexivity | lia].
    + right; right; split; [reflexivity | lia].
    + left; split; [reflexivity | lia].
  - destruct (Z.compare_spec ea eb) as [He|He|He]; cbn.
    + fold (Pos.compare ma mb).
      destruct (Pos.compare_spec ma mb) as [Hm|Hm|Hm]; cbn.
      * right; left; split; [reflexivity | subst; lia].
      * left; split; [reflexivity | lia].
      * right; right; split; [reflexivity | lia].
    + left; split; [reflexivity | lia].
    + right; right; split; [reflexivity | lia].
Qed.

Lemma is_nan_Prim2SF (x : float) :
  PrimFloat.is_nan x = true <-> Prim2SF x = S754_nan.
Proof.
  split; intros H.
  - unfold Prim2SF. now rewrite H.
  - unfold PrimFloat.is_nan. rewrite eqb_spec, H. reflexivity.
Qed.

Lemma not_nan_Prim2SF (x : float) : not_nan x <-> Prim2SF x <> S754_nan.
Proof.
  unfold not_nan. rewrite <- is_nan_Prim2SF.
  destruct (PrimFloat.is_nan x); split; congruence.
Qed.

(** With a NaN on either side every comparison is false. *)
Lemma cmp_nan (x y : float) :
  PrimFloat.is_nan x = true \/ PrimFloat.is_nan y = true ->
  PrimFloat.ltb x y = false /\ PrimFloat.leb x y = false /\ PrimFloat.eqb x y = false.
Proof.
  rewrite ltb_spec, leb_spec, eqb_spec, !is_nan_Prim2SF.
  unfold SFltb, SFleb, SFeqb.
  intros [H|H]; rewrite H; [|destruct (Prim2SF x)]; repeat split; reflexivity.
Qed.

(** Two values that are not NaN are ordered one way or the other, and the
    three comparison operators agree on how. *)
Lemma float_cmp_cases (x y : float) : not_nan x -> not_nan y -> float_cmp x y.
Proof.
  rewrite !not_nan_Prim2SF. intros Hx Hy.
  destruct (SFcompare_key Hx Hy) as [[E K]|[[E K]|[E K]]];
  destruct (SFcompare_key Hy Hx) as [[E' K']|[[E' K']|[E' K']]];
  try (exfalso; clear E E'; key_lia).
  - apply CmpLt; rewrite ?ltb_spec, ?leb_spec, ?eqb_spec;
      unfold SFltb, SFleb, SFeqb; rewrite ?E, ?E'; auto.
  - apply CmpEq; rewrite ?ltb_spec, ?leb_spec, ?eqb_spec;
      unfold SFltb, SFleb, SFeqb; rewrite ?E, ?E'; auto.
  - apply CmpGt; rewrite ?ltb_spec, ?leb_spec, ?eqb_spec;
      unfold SFltb, SFleb, SFeqb; rewrite ?E, ?E'; auto.
Qed.

Lemma leb_not_nan (x y : float) :
  PrimFloat.leb x y = true -> not_nan x /\ not_nan y.
Proof.
  intros H. unfold not_nan.
  destruct (PrimFloat.is_nan x) eqn:Ex;
    [destruct (@cmp_nan x y (or_introl Ex)) as (_ & E & _); congruence|].
  destruct (PrimFloat.is_nan y) eqn:Ey;
    [destruct (@cmp_nan x y (or_intror Ey)) as (_ & E & _); congruence|].
  auto.
Qed.

Lemma ltb_not_nan (x y : float) :
  PrimFloat.ltb x y = true -> not_nan x /\ not_nan y.
Proof.
  intros H. unfold not_nan.
  destruct (PrimFloat.is_nan x) eqn:Ex;
    [destruct (@cmp_nan x y (or_introl Ex)) as (E & _); congruence|].
  destruct (PrimFloat.is_nan y) eqn:Ey;
    [destruct (@cmp_nan x y (or_intror Ey)) as (E & _); congruence|].
  auto.
Qed.

Lemma leb_refl (x : float) : not_nan x -> PrimFloat.leb x x = true.
Proof.
  intros H. destruct (float_cmp_cases H H); auto; exfalso; key_lia.
Qed.

Lemma leb_trans (x y z : float) :
  PrimFloat.leb x y = true -> PrimFloat.leb y z = true -> PrimFloat.leb x z = true.
Proof.
  intros Hxy Hyz.
  destruct (leb_not_nan Hxy) as [Nx Ny], (leb_not_nan Hyz) as [_ Nz].
  destruct (float_cmp_cases Nx Ny); try congruence;
  destruct (float_cmp_cases Ny Nz); try congruence;
  destruct (float_cmp_cases Nx Nz); auto; exfalso; key_lia.
Qed.

Lemma leb_ltb_trans (x y z : float) :
  PrimFloat.leb x y = true -> PrimFloat.ltb y z = true -> PrimFloat.ltb x z = true.
Proof.
  intros Hxy Hyz.
  destruct (leb_not_nan Hxy) as [Nx Ny], (ltb_not_nan Hyz) as [_ Nz].
  destruct (float_cmp_cases Nx Ny); try congruence;
  destruct (float_cmp_cases Ny Nz); try congruence;
  destruct (float_cmp_cases Nx Nz); auto; exfalso; key_lia.
Qed.

(** Totality: when [x <= y] fails between two values that are not NaN,
    [y < x] holds. *)
Lemma leb_false_ltb (x y : float) :
  not_nan x -> not_nan y -> PrimFloat.leb x y = false -> PrimFloat.ltb y x = true.
Proof.
  intros Nx Ny H. destruct (float_cmp_cases Nx Ny); congruence.
Qed.

Lemma ltb_false_leb (x y : float) :
  not_nan x -> not_nan y -> PrimFloat.ltb x y = false -> PrimFloat.leb y x = true.
Proof.
  intros Nx Ny H. destruct (float_cmp_cases Nx Ny); congruence.
Qed.

Lemma ltb_leb (x y : float) : PrimFloat.ltb x y = true -> PrimFloat.leb x y = true.
Proof.
  intros H. destruct (ltb_not_nan H) as [Nx Ny].
  destruct (float_cmp_cases Nx Ny); congruence.
Qed.

Lemma ltb_eqb_false (x y : float) :
  PrimFloat.ltb x y = true -> PrimFloat.eqb x y = false.
Proof.
  intros H. destruct (ltb_not_nan H) as [Nx Ny].
  destruct (float_cmp_cases Nx Ny); congruence.
Qed.

(** [t <= p] holds exactly when [t < p] or [p == t], and never both. *)
Lemma leb_ltb_eqb (t p : float) :
  PrimFloat.leb t p = xorb (PrimFloat.ltb t p) (PrimFloat.eqb p t).
Proof.
  destruct (PrimFloat.is_nan t) eqn:Nt.
  { destruct (@cmp_nan t p (or_introl Nt)) as (-> & -> & _).
    destruct (@cmp_nan p t (or_intror Nt)) as (_ & _ & ->). reflexivity. }
  destruct (PrimFloat.is_nan p) eqn:Np.
  { destruct (@cmp_nan t p (or_intror Np)) as (-> & -> & _).
    destruct (@cmp_nan p t (or_introl Np)) as (_ & _ & ->). reflexivity. }
  destruct (float_cmp_cases Nt Np) as [-> -> _ _ _ -> _| -> -> _ _ _ -> _| -> -> _ _ _ -> _];
    reflexivity.
Qed.

(** ** Sorting *)

Lemma insert_desc_perm (x : float) (l : list float) :
  Permutation (x :: l) (insert_desc x l).
Proof.
  induction l as [|y l IH]; cbn; [reflexivity|].
  destruct (PrimFloat.ltb x y); [|reflexivity].
  rewrite perm_swap. now apply perm_skip.
Qed.

Lemma sorted_reverse_perm (xs : list float) : Permutation xs (sorted_reverse xs).
Proof.
  induction xs as [|x xs IH]; cbn; [constructor|].
  rewrite <- insert_desc_perm. now apply perm_skip.
Qed.

Lemma sorted_reverse_length (xs : list float) :
  length (sorted_reverse xs) = length xs.
Proof. symmetry. apply Permutation_length, sorted_reverse_perm. Qed.

Lemma sorted_reverse_In (xs : list float) (t : float) :
  In t (sorted_reverse xs) <-> In t xs.
Proof.
  split; apply Permutation_in;
    [apply Permutation_sym|]; apply sorted_reverse_perm.
Qed.

Lemma non_increasing_cons (x y : float) (l : list float) :
  non_increasing (x :: y :: l) = PrimFloat.leb y x && non_increasing (y :: l).
Proof. reflexivity. Qed.

Lemma insert_desc_sorted (x : float) (l : list float) :
  not_nan x -> Forall not_nan l ->
  non_increasing l = true -> non_increasing (insert_desc x l) = true.
Proof.
  intros Nx. induction l as [|y l IH]; intros Nl Hs; [reflexivity|].
  inversion Nl as [|? ? Ny Nl']; subst.
  cbn [insert_desc]. destruct (PrimFloat.ltb x y) eqn:E.
  - assert (Hl : non_increasing l = true).
    { destruct l; [reflexivity|].
      rewrite non_increasing_cons in Hs. now apply andb_prop in Hs. }
    specialize (IH Nl' Hl).
    destruct l as [|z l]; cbn [insert_desc] in *.
    + rewrite non_increasing_cons, (ltb_leb E). reflexivity.
    + rewrite non_increasing_cons in Hs. apply andb_prop in Hs as [Hzy _].
      destruct (PrimFloat.ltb x z);
        rewrite non_increasing_cons, IH, ?Hzy, ?(ltb_leb E); reflexivity.
  - rewrite non_increasing_cons, Hs, (ltb_false_leb Nx Ny E). reflexivity.
Qed.

Lemma sorted_reverse_sorted (xs : list float) :
  Forall not_nan xs -> non_increasing (sorted_reverse xs) = true.
Proof.
  induction 1 as [|x xs Nx Nxs IH]; [reflexivity|].
  cbn. apply insert_desc_sorted; auto.
  eapply Permutation_Forall; [apply sorted_reverse_perm | assumption].
Qed.

(** In a non-increasing list a later entry is at most an earlier one. *)
Lemma non_increasing_nth (xs : list float) :
  non_increasing xs = true ->
  forall i j a b, (i < j)%nat ->
    nth_error xs i = Some a -> nth_error xs j = Some b ->
    PrimFloat.leb b a = true.
Proof.
  induction xs as [|x xs IH]; intros Hs i j a b Hij Ha Hb.
  - destruct i; discriminate.
  - assert (Hs' : non_increasing xs = true).
    { destruct xs; [reflexivity|].
      rewrite non_increasing_cons in Hs. now apply andb_prop in Hs. }
    destruct j as [|j]; [lia|]. cbn in Hb.
    destruct i as [|i].
    + cbn in Ha. injection Ha as ->.
      clear Hij. revert b Hb. induction j as [|j IHj]; intros b Hb.
      * destruct xs as [|y xs]; [discriminate|]. cbn in Hb. injection Hb as ->.
        rewrite non_increasing_cons in Hs. now apply andb_prop in Hs.
      * destruct (nth_error xs j) as [c|] eqn:Ec.
        -- apply leb_trans with c; [|now apply IHj].
           apply (IH Hs' j (S j) c b); auto.
        -- exfalso. apply nth_error_None in Ec.
           assert (nth_error xs (S j) = None) by (apply nth_error_None; lia).
           congruence.
    + cbn in Ha. apply (IH Hs' i j a b); auto. lia.
Qed.

(** ** Labels and counts *)

Lemma insert_label_In (x z : Z) (ls : list Z) :
  In z (insert_label x ls) <-> z = x \/ In z ls.
Proof.
  induction ls as [|y ls IH]; cbn.
  - intuition.
  - destruct (Z.ltb_spec x y); cbn; [intuition|].
    destruct (Z.eqb_spec x y); cbn; [subst; intuition|].
    rewrite IH. intuition.
Qed.

Lemma unique_labels_In (y_true y_pred : list Z) (z : Z) :
  In z (unique_labels y_true y_pred) <-> In z y_true \/ In z y_pred.
Proof.
  unfold unique_labels. rewrite <- in_app_iff.
  induction (y_true ++ y_pred) as [|x l IH]; cbn; [tauto|].
  rewrite insert_label_In, IH. intuition.
Qed.

Lemma insert_label_sorted (x : Z) (ls : list Z) :
  StronglySorted Z.lt ls -> StronglySorted Z.lt (insert_label x ls).
Proof.
  induction 1 as [|y ls Hs IH Hy]; cbn.
  - repeat constructor.
  - destruct (Z.ltb_spec x y).
    + constructor; [now constructor|].
      constructor; [assumption|].
      eapply Forall_impl; [|exact Hy]. cbn. intros; lia.
    + destruct (Z.eqb_spec x y); [now constructor|].
      constructor; [assumption|].
      apply Forall_forall. intros z Hz. apply insert_label_In in Hz as [->|Hz].
      * lia.
      * rewrite Forall_forall in Hy. auto.
Qed.

Lemma unique_labels_sorted (y_true y_pred : list Z) :
  StronglySorted Z.lt (unique_labels y_true y_pred).
Proof.
  unfold unique_labels.
  induction (y_true ++ y_pred) as [|x l IH]; cbn; [constructor|].
  now apply insert_label_sorted.
Qed.

(** The labels of two vectors over {0, 1} in which both values occur. *)
Lemma unique_labels_binary (y_true y_pred : list Z) :
  (forall z, In z y_true \/ In z y_pred -> z = 0 \/ z = 1)%Z ->
  (In 0 y_true \/ In 0 y_pred)%Z ->
  (In 1 y_true \/ In 1 y_pred)%Z ->
  unique_labels y_true y_pred = [0; 1]%Z.
Proof.
  intros Hbin H0 H1.
  pose proof (unique_labels_sorted y_true y_pred) as Hs.
  rewrite <- unique_labels_In in H0, H1.
  assert (Hin : forall z, In z (unique_labels y_true y_pred) -> (z = 0 \/ z = 1)%Z).
  { intros z Hz. apply Hbin. now apply unique_labels_In. }
  destruct (unique_labels y_true y_pred) as [|a l]; [contradiction|].
  inversion Hs as [|? ? Hs' Ha]; subst. rewrite Forall_forall in Ha.
  assert (a = 0)%Z as ->.
  { destruct (Hin a (or_introl eq_refl)) as [->| ->]; [reflexivity|].
    destruct H0 as [H0|H0]; [lia|]. apply Ha in H0. lia. }
  destruct H1 as [H1|H1]; [lia|].
  destruct l as [|b l]; [contradiction|].
  inversion Hs' as [|? ? Hs'' Hb]; subst. rewrite Forall_forall in Hb.
  assert (b = 1)%Z as ->.
  { specialize (Ha b (or_introl eq_refl)).
    destruct (Hin b (or_intror (or_introl eq_refl))); lia. }
  destruct l as [|c l]; [reflexivity|].
  specialize (Hb c (or_introl eq_refl)).
  destruct (Hin c (or_intror (or_intror (or_introl eq_refl)))); lia.
Qed.

Lemma count_pairs_nonneg (a b : Z) (obs : list (Z * Z)) :
  (0 <= count_pairs a b obs)%Z.
Proof. unfold count_pairs. lia. Qed.

Lemma count_pairs_cons (a b : Z) (yp : Z * Z) (obs : list (Z * Z)) :
  count_pairs a b (yp :: obs) =
    ((if (fst yp =? a)%Z && (snd yp =? b)%Z then 1 else 0) + count_pairs a b obs)%Z.
Proof.
  unfold count_pairs. cbn [filter].
  destruct ((fst yp =? a)%Z && (snd yp =? b)%Z); cbn [length]; lia.
Qed.

(** When every observation carries one of two distinct labels on each
    side, the four counts add up to the number of observations. *)
Lemma count_pairs_total (a b : Z) (obs : list (Z * Z)) :
  a <> b ->
  Forall (fun yp => (fst yp = a \/ fst yp = b) /\ (snd yp = a \/ snd yp = b)) obs ->
  (count_pairs b b obs + count_pairs a b obs + count_pairs b a obs + count_pairs a a obs
   = Z.of_nat (length obs))%Z.
Proof.
  intros Hab. induction 1 as [|[y p] obs [Hy Hp] _ IH]; [reflexivity|].
  rewrite !count_pairs_cons. cbn [fst snd length] in *.
  destruct (Z.eqb_spec y a), (Z.eqb_spec y b), (Z.eqb_spec p a), (Z.eqb_spec p b);
    cbn [andb]; lia.
Qed.

(** ** The confusion matrix *)

Lemma combine_labels (y_true y_pred : list Z) (a b : Z) :
  unique_labels y_true y_pred = [a; b] ->
  a <> b /\
  Forall (fun yp => (fst yp = a \/ fst yp = b) /\ (snd yp = a \/ snd yp = b))
         (combine y_true y_pred).
Proof.
  intros Hl. split.
  - pose proof (unique_labels_sorted y_true y_pred) as Hs. rewrite Hl in Hs.
    inversion Hs as [|? ? _ Ha]; subst. inversion Ha; subst. lia.
  - apply Forall_forall. intros [y p] Hin. cbn [fst snd].
    assert (Hy : In y (unique_labels y_true y_pred)).
    { apply unique_labels_In. left. eapply in_combine_l, Hin. }
    assert (Hp : In p (unique_labels y_true y_pred)).
    { apply unique_labels_In. right. eapply in_combine_r, Hin. }
    rewrite Hl in Hy, Hp. cbn in Hy, Hp. intuition.
Qed.

(** With exactly two distinct labels [a < b] the library table is read as
    [[tn, fp], [fn, tp]] and rearranged. *)
Lemma standard_confusion_matrix_two (y_true y_pred : list Z) (a b : Z) :
  length y_true = length y_pred ->
  unique_labels y_true y_pred = [a; b] ->
  let obs := combine y_true y_pred in
  standard_confusion_matrix y_true y_pred =
    Ok (Array2x2 (count_pairs b b obs) (count_pairs a b obs)
                 (count_pairs b a obs) (count_pairs a a obs)).
Proof.
  intros Hlen Hl. unfold standard_confusion_matrix, confusion_matrix.
  rewrite Hlen, Nat.eqb_refl, Hl. reflexivity.
Qed.

Lemma standard_confusion_matrix_inv (y_true y_pred : list Z) (cm : array2x2 Z) :
  standard_confusion_matrix y_true y_pred = Ok cm ->
  length y_true = length y_pred /\
  exists a b, unique_labels y_true y_pred = [a; b] /\
    cm = Array2x2 (count_pairs b b (combine y_true y_pred))
                  (count_pairs a b (combine y_true y_pred))
                  (count_pairs b a (combine y_true y_pred))
                  (count_pairs a a (combine y_true y_pred)).
Proof.
  unfold standard_confusion_matrix, confusion_matrix.
  destruct (Nat.eqb_spec (length y_true) (length y_pred)) as [Hlen|]; [|discriminate].
  cbn [bind]. intros H. split; [assumption|].
  destruct (unique_labels y_true y_pred) as [|a [|b [|c l]]]; try discriminate.
  exists a, b. split; [reflexivity|]. cbn in H. congruence.
Qed.

(** Whatever the two labels are, the cells of a matrix that was built add
    up to the number of observations. *)
Lemma standard_confusion_matrix_total (y_true y_pred : list Z) (cm : array2x2 Z) :
  standard_confusion_matrix y_true y_pred = Ok cm ->
  cm_total cm = Z.of_nat (length y_true).
Proof.
  intros H. apply standard_confusion_matrix_inv in H as (Hlen & a & b & Hl & ->).
  destruct (combine_labels _ _ Hl) as [Hab Hobs].
  unfold cm_total. cbn [a00 a01 a10 a11].
  rewrite (count_pairs_total Hab Hobs), length_combine, <- Hlen, Nat.min_id.
  reflexivity.
Qed.

Lemma standard_confusion_matrix_defined (y_true y_pred : list Z) :
  (exists cm, standard_confusion_matrix y_true y_pred = Ok cm) <->
  length y_true = length y_pred /\ length (unique_labels y_true y_pred) = 2%nat.
Proof.
  split.
  - intros [cm H]. apply standard_confusion_matrix_inv in H as (Hlen & a & b & Hl & _).
    rewrite Hl. auto.
  - intros [Hlen Hl].
    destruct (unique_labels y_true y_pred) as [|a [|b [|c l]]] eqn:E; try discriminate.
    eexists. apply (standard_confusion_matrix_two _ _ Hlen E).
Qed.

Lemma standard_confusion_matrix_raises (y_true y_pred : list Z) (e : exn) :
  standard_confusion_matrix y_true y_pred = Raise e -> e = ValueError.
Proof.
  unfold standard_confusion_matrix, confusion_matrix.
  destruct (Nat.eqb (length y_true) (length y_pred)); cbn [bind]; [|congruence].
  destruct (unique_labels y_true y_pred) as [|a [|b [|c l]]]; cbn; congruence.
Qed.

(** ** The sweep *)

Lemma ltb_irrefl (x : float) : PrimFloat.ltb x x = false.
Proof.
  destruct (PrimFloat.is_nan x) eqn:N.
  - now destruct (@cmp_nan x x (or_introl N)).
  - destruct (float_cmp_cases N N); auto.
Qed.

Lemma y_pred_at_length (probabilities : list float) (t : float) :
  length (bool_labels (y_pred_at probabilities t)) = length probabilities.
Proof. unfold bool_labels, y_pred_at. now rewrite !length_map. Qed.

Lemma bool_labels_binary (bs : list bool) (z : Z) :
  In z (bool_labels bs) -> (z = 0 \/ z = 1)%Z.
Proof.
  unfold bool_labels. rewrite in_map_iff. intros ([|] & <- & _); cbn; auto.
Qed.

(** A threshold taken from the probabilities is not above itself, so the
    prediction at that threshold has a negative entry. *)
Lemma y_pred_at_negative (probabilities : list float) (t : float) :
  In t probabilities -> In 0%Z (bool_labels (y_pred_at probabilities t)).
Proof.
  intros H. unfold bool_labels, y_pred_at. rewrite map_map.
  apply in_map_iff. exists t. split; [|assumption].
  unfold np_gt. now rewrite ltb_irrefl.
Qed.

(** With 0/1 labels containing a positive one, the matrix is built at
    every threshold taken from the probabilities. *)
Lemma sweep_matrix_built (probabilities : list float) (y_true : list Z) (t : float) :
  length probabilities = length y_true ->
  binary_labels y_true -> In 1%Z y_true -> In t probabilities ->
  let obs := combine y_true (bool_labels (y_pred_at probabilities t)) in
  standard_confusion_matrix y_true (bool_labels (y_pred_at probabilities t)) =
    Ok (Array2x2 (count_pairs 1 1 obs) (count_pairs 0 1 obs)
                 (count_pairs 1 0 obs) (count_pairs 0 0 obs)).
Proof.
  intros Hlen Hbin H1 Ht.
  apply standard_confusion_matrix_two.
  - now rewrite y_pred_at_length.
  - apply unique_labels_binary.
    + intros z [Hz|Hz].
      * unfold binary_labels in Hbin. rewrite Forall_forall in Hbin. auto.
      * eapply bool_labels_binary, Hz.
    + right. now apply y_pred_at_negative.
    + now left.
Qed.

Section Sweep.

Variable costbenefit : array2x2 Z.
Variable probabilities : list float.
Variable y_true : list Z.

Lemma profit_loop_ok (threshold : list float) :
  (forall t, In t threshold ->
     exists cm, standard_confusion_matrix y_true
                  (bool_labels (y_pred_at probabilities t)) = Ok cm) ->
  forall profit, exists profits,
    profit_loop costbenefit probabilities y_true threshold profit = Ok (profit ++ profits) /\
    Forall2 (profit_at costbenefit probabilities y_true) threshold profits.
Proof.
  induction threshold as [|t ts IH]; intros Hb profit.
  - exists []. rewrite app_nil_r. split; [reflexivity | constructor].
  - destruct (Hb t (or_introl eq_refl)) as [cm Hcm].
    destruct (IH (fun t' H' => Hb t' (or_intror H'))
                 (profit ++ [expected_profit costbenefit cm])) as (ps & Hps & Hall).
    exists (expected_profit costbenefit cm :: ps). split.
    + cbn [profit_loop]. rewrite Hcm. cbn [bind]. rewrite Hps, <- app_assoc. reflexivity.
    + constructor; [|assumption]. exists cm. auto.
Qed.

Lemma profit_loop_raise (t : float) (ts profit : list float) (e : exn) :
  standard_confusion_matrix y_true (bool_labels (y_pred_at probabilities t)) = Raise e ->
  profit_loop costbenefit probabilities y_true (t :: ts) profit = Raise e.
Proof. intros H. cbn [profit_loop]. now rewrite H. Qed.

End Sweep.

(** With 0/1 labels containing a positive one, [profit_curve] returns the
    sorted probabilities and one profit per threshold. *)
Lemma profit_curve_returns (cb cost_benefit_matrix : array2x2 Z)
    (probabilities : list float) (y_true : list Z) :
  length probabilities = length y_true ->
  binary_labels y_true -> In 1%Z y_true ->
  exists profits,
    profit_curve cb cost_benefit_matrix probabilities y_true
      = Ok (sorted_reverse probabilities, profits) /\
    Forall2 (profit_at cb probabilities y_true) (sorted_reverse probabilities) profits.
Proof.
  intros Hlen Hbin H1. unfold profit_curve.
  destruct (@profit_loop_ok cb probabilities y_true (sorted_reverse probabilities))
    with (profit := @nil float) as (ps & Hps & Hall).
  - intros t Ht. apply (proj1 (@sorted_reverse_In _ _)) in Ht. eexists.
    apply sweep_matrix_built; assumption.
  - exists ps. rewrite Hps. cbn. auto.
Qed.

Lemma leb_ltb_false (p t : float) :
  PrimFloat.leb p t = true -> PrimFloat.ltb t p = false.
Proof.
  intros H. destruct (leb_not_nan H) as [Np Nt].
  destruct (float_cmp_cases Np Nt); congruence.
Qed.

(** The first entry of the sorted list is a maximum of the list. *)
Lemma sorted_reverse_head (xs : list float) (t : float) (rest : list float) :
  Forall not_nan xs -> sorted_reverse xs = t :: rest ->
  forall p, In p xs -> PrimFloat.leb p t = true.
Proof.
  intros Nx E p Hp.
  pose proof (sorted_reverse_sorted Nx) as Hs. rewrite E in Hs.
  rewrite Forall_forall in Nx.
  apply (proj2 (@sorted_reverse_In _ _)) in Hp. rewrite E in Hp. destruct Hp as [<-|Hp].
  - apply leb_refl, Nx, sorted_reverse_In. rewrite E. now left.
  - apply In_nth_error in Hp as [j Hj].
    apply (non_increasing_nth _ Hs (i := 0) (j := S j)); [lia| reflexivity | exact Hj].
Qed.

Lemma insert_label_single (c : Z) (l : list Z) :
  Forall (eq c) l -> l <> [] -> fold_right insert_label [] l = [c].
Proof.
  induction 1 as [|x l <- Hl IH]; [congruence|]. intros _.
  cbn [fold_right]. destruct l as [|y l].
  - reflexivity.
  - rewrite IH by discriminate. cbn. now rewrite Z.ltb_irrefl, Z.eqb_refl.
Qed.

Lemma count_pairs_single (c : Z) (obs : list (Z * Z)) :
  Forall (eq (c, c)) obs -> count_pairs c c obs = Z.of_nat (length obs).
Proof.
  induction 1 as [|yp obs <- _ IH]; [reflexivity|].
  rewrite count_pairs_cons, IH. cbn [fst snd length].
  rewrite Z.eqb_refl. cbn [andb]. lia.
Qed.

Lemma combine_single (c : Z) (ys ps : list Z) :
  Forall (eq c) ys -> Forall (eq c) ps -> Forall (eq (c, c)) (combine ys ps).
Proof.
  intros Hy. revert ps. induction Hy as [|y ys <- _ IH]; intros ps Hp; [constructor|].
  destruct Hp as [|p ps <- Hp]; cbn; constructor; auto.
Qed.

(** When both vectors hold one and the same class, the library table has
    a single cell and the unpacking fails. *)
Lemma single_class_table (c : Z) (y_true y_pred : list Z) :
  length y_true = length y_pred -> y_true <> [] ->
  Forall (eq c) y_true -> Forall (eq c) y_pred ->
  confusion_matrix y_true y_pred = Ok [[Z.of_nat (length y_true)]] /\
  standard_confusion_matrix y_true y_pred = Raise ValueError.
Proof.
  intros Hlen Hne Hy Hp.
  assert (Hl : unique_labels y_true y_pred = [c]).
  { unfold unique_labels. apply insert_label_single.
    - apply Forall_app. auto.
    - destruct y_true; [congruence | discriminate]. }
  assert (Hc : confusion_matrix y_true y_pred = Ok [[Z.of_nat (length y_true)]]).
  { unfold confusion_matrix. rewrite Hlen, Nat.eqb_refl, Hl. cbn [map].
    rewrite (count_pairs_single (combine_single Hy Hp)), length_combine, <- Hlen, Nat.min_id.
    reflexivity. }
  split; [assumption|].
  unfold standard_confusion_matrix. rewrite Hc. reflexivity.
Qed.

(** On a non-empty all-negative label vector the first iteration of the
    sweep already fails. *)
Lemma profit_curve_all_negative (cb cost_benefit_matrix : array2x2 Z)
    (probabilities : list float) (y_true : list Z) :
  length probabilities = length y_true -> y_true <> [] ->
  Forall (eq 0%Z) y_true -> Forall not_nan probabilities ->
  profit_curve cb cost_benefit_matrix probabilities y_true = Raise ValueError.
Proof.
  intros Hlen Hne Hy Np. unfold profit_curve.
  destruct (sorted_reverse probabilities) as [|t rest] eqn:E.
  - apply (f_equal (@length float)) in E. rewrite sorted_reverse_length in E.
    destruct y_true; [congruence|]. cbn in *. lia.
  - rewrite profit_loop_raise with (e := ValueError); [reflexivity|].
    apply single_class_table with (c := 0%Z); auto.
    + now rewrite y_pred_at_length.
    + unfold bool_labels, y_pred_at. rewrite map_map. apply Forall_map.
      apply Forall_forall. intros p Hp. unfold np_gt.
      now rewrite (leb_ltb_false (sorted_reverse_head Np E p Hp)).
Qed.

(** ** The selector *)

Lemma np_maximum_nan (acc : float) (xs : list float) :
  PrimFloat.is_nan acc = true -> fold_left np_maximum xs acc = acc.
Proof.
  intros N. induction xs as [|x xs IH]; [reflexivity|].
  cbn [fold_left].
  assert (Hstep : np_maximum acc x = acc).
  { unfold np_maximum. now rewrite N, orb_true_r. }
  now rewrite Hstep.
Qed.

(** The loop of [np.argmax] and the reduction of [np.max] started from
    the same running maximum [mp] (not NaN): either nothing in [xs] beats
    [mp], or both stop on the same entry of [xs], the first NaN if there
    is one and the first maximum otherwise. *)
Lemma argmax_from_spec (xs : list float) :
  forall (mp : float) (max_ind i : nat), not_nan mp ->
  let k := argmax_from mp max_ind i xs in
  let m := fold_left np_maximum xs mp in
  (k = max_ind /\ m = mp /\ Forall (fun x => PrimFloat.leb x mp = true) xs) \/
  (exists j, k = (i + j)%nat /\ nth_error xs j = Some m /\
     (forall j' x, (j' < j)%nat -> nth_error xs j' = Some x ->
        not_nan x /\ (not_nan m -> PrimFloat.ltb x m = true)) /\
     (not_nan m -> PrimFloat.ltb mp m = true /\
                   Forall (fun x => PrimFloat.leb x m = true) xs)).
Proof.
  induction xs as [|x xs IH]; intros mp max_ind i Nmp; cbn zeta.
  - left. cbn. auto.
  - cbn [argmax_from fold_left].
    assert (Hstep : np_maximum mp x = if PrimFloat.leb x mp then mp else x).
    { unfold np_maximum. now rewrite Nmp, orb_false_r. }
    rewrite Hstep. clear Hstep.
    destruct (PrimFloat.leb x mp) eqn:Hx; cbn [negb].
    + destruct (IH mp max_ind (S i) Nmp) as [(Hk & Hm & Hall)|(j & Hk & Hj & Hbefore & Hmax)].
      * left. auto.
      * right. exists (S j). split; [lia|]. split; [exact Hj|]. split.
        -- intros [|j'] y Hlt Hy.
           ++ cbn in Hy. injection Hy as <-. split; [apply (leb_not_nan Hx)|].
              intros Nm. apply leb_ltb_trans with mp; [assumption | apply Hmax, Nm].
           ++ apply (Hbefore j' y); [lia | exact Hy].
        -- intros Nm. destruct (Hmax Nm) as [Hlt Hall]. split; [assumption|].
           constructor; [|assumption].
           apply ltb_leb, leb_ltb_trans with mp; assumption.
    + destruct (PrimFloat.is_nan x) eqn:Nx.
      * right. exists 0%nat. rewrite (@np_maximum_nan x xs Nx).
        split; [lia|]. split; [reflexivity|]. split.
        -- intros j' y Hlt. lia.
        -- unfold not_nan. congruence.
      * assert (Hlt : PrimFloat.ltb mp x = true) by (apply leb_false_ltb; assumption).
        destruct (IH x i (S i) Nx) as [(Hk & Hm & Hall)|(j & Hk & Hj & Hbefore & Hmax)].
        -- right. exists 0%nat. rewrite Hk, Hm.
           split; [lia|]. split; [reflexivity|]. split.
           ++ intros j' y Hj'. lia.
           ++ intros _. split; [assumption|]. constructor; [now apply leb_refl | assumption].
        -- right. exists (S j). split; [lia|]. split; [exact Hj|]. split.
           ++ intros [|j'] y Hj' Hy.
              ** cbn in Hy. injection Hy as <-. split; [exact Nx|].
                 intros Nm. apply Hmax, Nm.
              ** apply (Hbefore j' y); [lia | exact Hy].
           ++ intros Nm. destruct (Hmax Nm) as [Hxm Hall]. split.
              ** apply leb_ltb_trans with x; [now apply ltb_leb | assumption].
              ** constructor; [now apply ltb_leb | assumption].
Qed.

Lemma eqb_not_nan (x y : float) :
  PrimFloat.eqb x y = true -> not_nan x /\ not_nan y.
Proof.
  intros H. unfold not_nan.
  destruct (PrimFloat.is_nan x) eqn:Ex;
    [destruct (@cmp_nan x y (or_introl Ex)) as (_ & _ & E); congruence|].
  destruct (PrimFloat.is_nan y) eqn:Ey;
    [destruct (@cmp_nan x y (or_intror Ey)) as (_ & _ & E); congruence|].
  auto.
Qed.

(** [np.argmax] and [np.max] of a non-empty sequence point at the same
    entry: the first NaN if the sequence has one, the first maximum
    otherwise. *)
Lemma np_argmax_np_max (profits : list float) :
  profits <> [] ->
  exists i m,
    np_argmax profits = Ok i /\ np_max profits = Ok m /\
    nth_error profits i = Some m /\
    (forall j p, (j < i)%nat -> nth_error profits j = Some p ->
       not_nan p /\ (not_nan m -> PrimFloat.ltb p m = true)) /\
    (not_nan m -> forall p, In p profits -> PrimFloat.leb p m = true).
Proof.
  destruct profits as [|x0 xs]; [congruence|]. intros _.
  cbn [np_argmax np_max].
  destruct (PrimFloat.is_nan x0) eqn:N0.
  - exists 0%nat, x0. rewrite (@np_maximum_nan x0 xs N0).
    repeat split; try reflexivity; try (intros; lia).
    unfold not_nan. congruence.
  - destruct (@argmax_from_spec xs x0 0%nat 1%nat N0)
      as [(Hk & Hm & Hall)|(j & Hk & Hj & Hbefore & Hmax)].
    + exists 0%nat, x0. rewrite Hk, Hm.
      repeat split; try reflexivity; try (intros; lia).
      intros _ p [<-|Hp]; [now apply leb_refl|].
      rewrite Forall_forall in Hall. auto.
    + exists (S j), (fold_left np_maximum xs x0). rewrite Hk.
      split; [reflexivity|]. split; [reflexivity|]. split; [exact Hj|]. split.
      * intros [|j'] p Hlt Hp.
        -- cbn in Hp. injection Hp as <-. split; [exact N0|].
           intros Nm. apply Hmax, Nm.
        -- apply (Hbefore j' p); [lia | exact Hp].
      * intros Nm p [<-|Hp].
        -- apply ltb_leb, Hmax, Nm.
        -- destruct (Hmax Nm) as [_ Hall]. rewrite Forall_forall in Hall. auto.
Qed.

(** When both classes occur among the two 0/1 vectors, the result is the
    matrix [[TP, FP], [FN, TN]] of the counting rules. *)
Lemma standard_confusion_matrix_counts (y_true y_predict : list Z) :
  length y_true = length y_predict ->
  binary_labels y_true -> binary_labels y_predict ->
  In 0%Z (y_true ++ y_predict) -> In 1%Z (y_true ++ y_predict) ->
  standard_confusion_matrix y_true y_predict =
    Ok (Array2x2 (true_positives y_true y_predict) (false_positives y_true y_predict)
                 (false_negatives y_true y_predict) (true_negatives y_true y_predict)).
Proof.
  intros Hlen Ht Hp H0 H1.
  apply standard_confusion_matrix_two; [assumption|].
  unfold binary_labels in *. rewrite Forall_forall in Ht, Hp.
  apply unique_labels_binary.
  - intros z [Hz|Hz]; auto.
  - now apply in_app_or.
  - now apply in_app_or.
Qed.

(** ** Conversion of a count to a float *)

(** The conversion of [of_uint63] rounds a positive integer to a float that
    is positive: the mantissa is never shifted away. *)

Lemma digits2_pos_lower (m : positive) :
  (2 ^ (Zpos (digits2_pos m) - 1) <= Zpos m)%Z.
Proof.
  induction m as [m IH|m IH|]; cbn [digits2_pos].
  - rewrite Pos2Z.inj_succ, Z.sub_1_r, Z.pred_succ.
    replace (Zpos (digits2_pos m)) with (Z.succ (Zpos (digits2_pos m) - 1)) by lia.
    rewrite Z.pow_succ_r by lia. lia.
  - rewrite Pos2Z.inj_succ, Z.sub_1_r, Z.pred_succ.
    replace (Zpos (digits2_pos m)) with (Z.succ (Zpos (digits2_pos m) - 1)) by lia.
    rewrite Z.pow_succ_r by lia. lia.
  - reflexivity.
Qed.

Lemma shr_1_lower (k : Z) (mrs : shr_record) :
  (0 <= k)%Z -> (2 ^ (k + 1) <= shr_m mrs)%Z -> (2 ^ k <= shr_m (shr_1 mrs))%Z.
Proof.
  intros Hk H. rewrite Z.add_1_r, Z.pow_succ_r in H by assumption.
  assert (0 < 2 ^ k)%Z by (apply Z.pow_pos_nonneg; lia).
  destruct mrs as [[|[p|p|]|p] r s]; cbn [shr_1 shr_m] in *;
    try (pose proof (Pos2Z.inj_xO p); pose proof (Pos2Z.inj_xI p)); lia.
Qed.

Lemma iter_shr_1_lower (p : positive) :
  forall (k : Z) (mrs : shr_record),
    (0 <= k)%Z -> (2 ^ (k + Zpos p) <= shr_m mrs)%Z ->
    (2 ^ k <= shr_m (iter_pos shr_1 p mrs))%Z.
Proof.
  induction p as [p IH|p IH|]; intros k mrs Hk H; cbn [iter_pos].
  - apply IH; [assumption|]. apply IH; [lia|].
    replace (k + Zpos p + Zpos p)%Z with (k + Zpos p + Zpos p + 1 - 1)%Z by lia.
    replace (k + Zpos p + Zpos p + 1 - 1)%Z with (k + Zpos p + Zpos p)%Z by lia.
    apply shr_1_lower; [lia|].
    replace (k + Zpos p + Zpos p + 1)%Z with (k + Zpos p~1)%Z by lia. exact H.
  - apply IH; [assumption|]. apply IH; [lia|].
    replace (k + Zpos p + Zpos p)%Z with (k + Zpos p~0)%Z by lia. exact H.
  - now apply shr_1_lower.
Qed.

Lemma shr_m_of_loc (m : Z) (l : location) : shr_m (shr_record_of_loc m l) = m.
Proof. destruct l as [|[]]; reflexivity. Qed.

(** Shifting a positive mantissa to the exponent of its format leaves it
    positive. *)
Lemma shr_fexp_pos (m : positive) (e : Z) (l : location) :
  (emin <= e)%Z ->
  (0 < shr_m (fst (shr_fexp prec emax (Zpos m) e l)))%Z /\
  (emin <= snd (shr_fexp prec emax (Zpos m) e l))%Z.
Proof.
  intros He. unfold shr_fexp, shr, fexp. cbn [Zdigits2].
  pose proof (digits2_pos_lower m) as Hd.
  assert (Hprec : prec = 53%Z) by reflexivity.
  assert (Hemin : emin = (-1074)%Z) by reflexivity.
  destruct (Z.max (Zpos (digits2_pos m) + e - prec) emin - e)%Z as [|p|p] eqn:En;
    cbn [fst snd]; rewrite ?shr_m_of_loc; try (split; lia).
  split.
  - assert (H1 : (2 ^ 0 <= shr_m (iter_pos shr_1 p (shr_record_of_loc (Zpos m) l)))%Z).
    { apply iter_shr_1_lower; [lia|]. rewrite shr_m_of_loc.
      eapply Z.le_trans; [|exact Hd].
      apply Z.pow_le_mono_r; lia. }
    cbn in H1. lia.
  - lia.
Qed.

Lemma round_nearest_even_pos (m : Z) (l : location) :
  (0 < m)%Z -> (0 < round_nearest_even m l)%Z.
Proof.
  intros H. destruct l as [|[]]; cbn; try lia. destruct (Z.even m); lia.
Qed.

Lemma binary_round_aux_pos (sx : bool) (m : positive) (e : Z) (l : location) :
  (emin <= e)%Z ->
  (exists m' e', binary_round_aux prec emax sx (Zpos m) e l = S754_finite sx m' e') \/
  binary_round_aux prec emax sx (Zpos m) e l = S754_infinity sx.
Proof.
  intros He. unfold binary_round_aux.
  destruct (@shr_fexp_pos m e l He) as [H1 H1e].
  destruct (shr_fexp prec emax (Zpos m) e l) as [mrs' e'] eqn:E1. cbn [fst snd] in *.
  pose proof (@round_nearest_even_pos _ (loc_of_shr_record mrs') H1) as H2.
  destruct (round_nearest_even (shr_m mrs') (loc_of_shr_record mrs')) as [|m2|m2]; try lia.
  destruct (@shr_fexp_pos m2 e' loc_Exact H1e) as [H3 _].
  destruct (shr_fexp prec emax (Zpos m2) e' loc_Exact) as [mrs'' e''] eqn:E2.
  cbn [fst snd] in *.
  destruct (shr_m mrs'') as [|m3|m3]; try lia.
  destruct (Z.leb e'' (emax - prec)); [left; eauto | now right].
Qed.

Lemma binary_normalize_pos (m : positive) :
  (exists m' e', binary_normalize prec emax (Zpos m) 0 false = S754_finite false m' e') \/
  binary_normalize prec emax (Zpos m) 0 false = S754_infinity false.
Proof.
  unfold binary_normalize, binary_round, shl_align.
  destruct (SpecFloat.fexp prec emax (Zpos (digits2_pos m) + 0) - 0)%Z as [|d|d] eqn:Ed;
    apply binary_round_aux_pos.
  - now vm_compute.
  - now vm_compute.
  - unfold SpecFloat.fexp in *. lia.
Qed.

Lemma of_uint63_pos (z : Z) :
  (1 <= z < 2 ^ 63)%Z ->
  PrimFloat.ltb PrimFloat.zero (PrimFloat.of_uint63 (Uint63.of_Z z)) = true.
Proof.
  intros Hz. rewrite ltb_spec, of_uint63_spec, Uint63.of_Z_spec.
  rewrite Z.mod_small by (change wB with (2 ^ 63)%Z; lia).
  change (Prim2SF PrimFloat.zero) with (S754_zero false).
  destruct z as [|m|m]; try lia.
  destruct (binary_normalize_pos m) as [(m' & e' & ->)| ->]; reflexivity.
Qed.

(** A count from 1 to 2^63 - 1 is converted to a float above zero. *)
Lemma float_of_Z_pos (z : Z) :
  (1 <= z < 2 ^ 63)%Z -> PrimFloat.ltb PrimFloat.zero (float_of_Z z) = true.
Proof.
  intros Hz. unfold float_of_Z.
  destruct (Z.eqb_spec z (-9223372036854775808)); [lia|].
  destruct (Z.ltb_spec z 0); [lia|]. now apply of_uint63_pos.
Qed.

Lemma float_of_Z_nonzero (z : Z) :
  (1 <= z < 2 ^ 63)%Z ->
  PrimFloat.eqb (float_of_Z z) PrimFloat.zero = false /\
  PrimFloat.is_nan (float_of_Z z) = false.
Proof.
  intros Hz. pose proof (float_of_Z_pos Hz) as H.
  destruct (ltb_not_nan H) as [N0 Nz].
  split; [|exact Nz]. destruct (float_cmp_cases N0 Nz); congruence.
Qed.

(** The divisor of [expected_profit] is the conversion of the total of the
    cells. *)
Lemma expected_profit_normalized (g cm : array2x2 Z) :
  expected_profit g cm = normalized_profit g cm (float_of_Z (cm_total cm)).
Proof. reflexivity. Qed.

Lemma float_eqb_refl (x : float) : not_nan x -> PrimFloat.eqb x x = true.
Proof.
  intros H. destruct (float_cmp_cases H H); auto; exfalso; key_lia.
Qed.

(** A matrix that is built has the number of probabilities as its total,
    so the profit computed from it is divided by the conversion of that
    number. *)
Lemma profit_at_divided (g : array2x2 Z) (probabilities : list float)
    (y_true : list Z) (t p : float) :
  profit_at g probabilities y_true t p -> divided_profit g probabilities y_true t p.
Proof.
  intros (cm & Hcm & ->). exists cm. split; [exact Hcm|].
  pose proof (standard_confusion_matrix_total _ _ Hcm) as Htot.
  apply standard_confusion_matrix_inv in Hcm as [Hlen _].
  rewrite y_pred_at_length in Hlen. rewrite Hlen in Htot.
  split; [exact Htot|]. now rewrite expected_profit_normalized, Htot.
Qed.

Lemma profit_loop_inv (cb : array2x2 Z) (probabilities : list float)
    (y_true : list Z) (threshold : list float) :
  forall profit r,
    profit_loop cb probabilities y_true threshold profit = Ok r ->
    exists profits, r = profit ++ profits /\
      Forall2 (profit_at cb probabilities y_true) threshold profits.
Proof.
  induction threshold as [|t ts IH]; intros profit r H.
  - injection H as <-. exists []. rewrite app_nil_r. split; [reflexivity | constructor].
  - cbn [profit_loop] in H.
    destruct (standard_confusion_matrix y_true (bool_labels (y_pred_at probabilities t)))
      as [cm|e] eqn:Hcm; cbn [bind] in H; [|discriminate].
    destruct (IH _ _ H) as (ps & -> & Hall).
    exists (expected_profit cb cm :: ps). rewrite <- app_assoc. split; [reflexivity|].
    constructor; [|assumption]. exists cm. auto.
Qed.

(** Whenever [profit_curve] returns, the thresholds are the sorted
    probabilities and each profit is the one computed at its threshold. *)
Lemma profit_curve_inv (cb cost_benefit_matrix : array2x2 Z)
    (probabilities : list float) (y_true : list Z) (thresholds profits : list float) :
  profit_curve cb cost_benefit_matrix probabilities y_true = Ok (thresholds, profits) ->
  thresholds = sorted_reverse probabilities /\
  Forall2 (profit_at cb probabilities y_true) thresholds profits.
Proof.
  unfold profit_curve. intros H.
  destruct (profit_loop cb probabilities y_true (sorted_reverse probabilities) [])
    as [ps|e] eqn:Hl; cbn [bind] in H; [|discriminate].
  injection H as <- <-. split; [reflexivity|].
  destruct (profit_loop_inv _ _ _ _ _ Hl) as (ps' & -> & Hall). exact Hall.
Qed.

(** X14: for equal-length inputs whose probabilities are not NaN and whose 0/1
    labels contain a positive one, [profit_curve] returns one threshold
    and one profit per observation; the thresholds are the probabilities,
    duplicates retained, in non-increasing order. *)
Lemma profit_curve_shape (cb cost_benefit_matrix : array2x2 Z)
    (probabilities : list float) (y_true : list Z) :
  length probabilities = length y_true ->
  Forall not_nan probabilities ->
  binary_labels y_true -> In 1%Z y_true ->
  exists thresholds profits,
    profit_curve cb cost_benefit_matrix probabilities y_true = Ok (thresholds, profits) /\
    length thresholds = length probabilities /\
    length profits = length probabilities /\
    non_increasing thresholds = true /\
    Permutation probabilities thresholds.
Proof.
  intros Hlen Np Hbin H1.
  destruct (@profit_curve_returns cb cost_benefit_matrix probabilities y_true Hlen Hbin H1)
    as (ps & Hps & Hall).
  exists (sorted_reverse probabilities), ps.
  split; [exact Hps|].
  split; [apply sorted_reverse_length|].
  split; [rewrite <- (Forall2_length Hall); apply sorted_reverse_length|].
  split; [now apply sorted_reverse_sorted | apply sorted_reverse_perm].
Qed.

(** * The claims *)

Open Scope float_scope.

(** C1: a call with the all-zero cost-benefit matrix should return profits
    that are all 0.0.  Evaluated on one probability 0.5 with label 1, the
    code returns the profit -5.0: the false negative is charged with the
    module-level [costbenefit], not with the matrix that was passed. *)
Theorem profit_curve_zero_matrix_nonzero_profit :
  profit_curve costbenefit (Array2x2 0 0 0 0)%Z [0.5] [1%Z] = Ok ([0.5], [-5]) /\
  PrimFloat.eqb (-5) 0 = false.
Proof. split; vm_compute; reflexivity. Qed.

(** C2: whatever module-level value [costbenefit] has, two calls that
    differ only in their [cost_benefit_matrix] argument return the same
    (thresholds, profits); the profits follow the module-level value:
    with the notebook's binding the sample below earns -5.0 and with an
    all-zero binding 0.0, whatever matrix is passed. *)
Theorem profit_curve_argument_unused :
  (forall (g CB1 CB2 : array2x2 Z) (P : list float) (Y : list Z),
     profit_curve g CB1 P Y = profit_curve g CB2 P Y) /\
  (forall CB : array2x2 Z,
     profit_curve costbenefit CB [0.5] [1%Z] = Ok ([0.5], [-5]) /\
     profit_curve (Array2x2 0 0 0 0)%Z CB [0.5] [1%Z] = Ok ([0.5], [0])).
Proof.
  split.
  - intros g CB1 CB2 P Y. reflexivity.
  - intros CB. split; vm_compute; reflexivity.
Qed.

(** C3: on the equal-length binary vectors [0, 0] and [0, 0] the counting
    rules give TP = 0, FP = 0, FN = 0, TN = 2, but the library table has
    the single cell 2 and [standard_confusion_matrix] raises
    [ValueError] instead of returning [[0, 0], [0, 2]]. *)
Theorem standard_confusion_matrix_single_class_fails :
  standard_confusion_matrix [0; 0]%Z [0; 0]%Z = Raise ValueError /\
  confusion_matrix [0; 0]%Z [0; 0]%Z = Ok [[2%Z]] /\
  true_positives [0; 0]%Z [0; 0]%Z = 0%Z /\
  false_positives [0; 0]%Z [0; 0]%Z = 0%Z /\
  false_negatives [0; 0]%Z [0; 0]%Z = 0%Z /\
  true_negatives [0; 0]%Z [0; 0]%Z = 2%Z.
Proof. repeat split; vm_compute; reflexivity. Qed.

(** C4: for Y = [1,1,0,0], P = [0.9, 0.6, 0.4, 0.1] and
    CB = [[10,-10],[-5,0]], the prediction at threshold 0.4 is [1,1,0,0],
    the matrix is TP=2, FP=0, FN=0, TN=2, the profit there is exactly 5.0,
    and [find_best_threshold] on the full curve returns threshold 0.4 with
    profit 5.0. *)
Theorem scenario_perfect_separation :
  let Y := [1; 1; 0; 0]%Z in
  let P := [0.9; 0.6; 0.4; 0.1] in
  let CB := (Array2x2 10 (-10) (-5) 0)%Z in
  y_pred_at P 0.4 = [true; true; false; false] /\
  standard_confusion_matrix Y (bool_labels (y_pred_at P 0.4)) = Ok (Array2x2 2 0 0 2)%Z /\
  expected_profit costbenefit (Array2x2 2 0 0 2)%Z = 5 /\
  profit_curve costbenefit CB P Y = Ok ([0.9; 0.6; 0.4; 0.1], [-2.5; 1.25; 5; 2.5]) /\
  find_best_threshold [0.9; 0.6; 0.4; 0.1] [-2.5; 1.25; 5; 2.5] = Ok (0.4, 5).
Proof. repeat split; vm_compute; reflexivity. Qed.

(** C5: on the valid input P = [0.7, 0.2], Y = [0, 0] (N = 2 > 0)
    [profit_curve] returns no sequences at all: the first threshold
    predicts every observation negative, the labels are a single class,
    and the call raises [ValueError]. *)
Theorem profit_curve_all_negative_labels_fails :
  profit_curve costbenefit costbenefit [0.7; 0.2] [0; 0]%Z = Raise ValueError /\
  y_pred_at [0.7; 0.2] 0.7 = [false; false] /\
  standard_confusion_matrix [0; 0]%Z (bool_labels (y_pred_at [0.7; 0.2] 0.7))
    = Raise ValueError.
Proof. repeat split; vm_compute; reflexivity. Qed.

(** C6: for thresholds and profits of equal non-zero length,
    [find_best_threshold] returns the threshold at the index [i] of the
    maximum profit together with that maximum [m]: [m] compares equal to
    the profit at [i], every profit is at most [m], every profit before
    [i] is strictly below [m] (so [i] is the first maximizer), and when
    the thresholds are in non-increasing order no maximizer has a
    threshold above the returned one.  (The maximum is numpy's: were a
    profit NaN, the first NaN would be returned; the order statements are
    for a maximum that is not NaN, which it is whenever no profit is.
    Which of two equal zeros of opposite sign is returned as [m] is not
    said.) *)
Theorem find_best_threshold_first_maximum (thresholds profits : list float) :
  length thresholds = length profits -> (0 < length profits)%nat ->
  exists i t pi m,
    find_best_threshold thresholds profits = Ok (t, m) /\
    nth_error thresholds i = Some t /\
    nth_error profits i = Some pi /\
    (PrimFloat.eqb m pi = true \/
     (PrimFloat.is_nan m = true /\ PrimFloat.is_nan pi = true)) /\
    (Forall not_nan profits -> not_nan m) /\
    (not_nan m -> forall p, In p profits -> PrimFloat.leb p m = true) /\
    (forall j p, (j < i)%nat -> nth_error profits j = Some p ->
       not_nan p /\ (not_nan m -> PrimFloat.ltb p m = true)) /\
    (non_increasing thresholds = true ->
     forall j p tj, nth_error profits j = Some p -> PrimFloat.eqb p m = true ->
       nth_error thresholds j = Some tj ->
       (i <= j)%nat /\ PrimFloat.ltb t tj = false /\
       (not_nan t -> PrimFloat.leb tj t = true)).
Proof.
  intros Hlen Hpos.
  destruct (@np_argmax_np_max profits) as (i & m & Hi & Hm & Hnth & Hbefore & Hmax).
  { destruct profits; [cbn in Hpos; lia | discriminate]. }
  assert (Hlt : (i < length thresholds)%nat).
  { rewrite Hlen. apply nth_error_Some. congruence. }
  destruct (nth_error thresholds i) as [t|] eqn:Ht;
    [|apply nth_error_None in Ht; lia].
  exists i, t, m, m. unfold find_best_threshold, getitem.
  rewrite Hi. cbn [bind]. rewrite Ht. cbn [bind]. rewrite Hm. cbn [bind].
  repeat (split; [reflexivity || assumption|]).
  split; [|split; [|split; [assumption|split; [assumption|]]]].
  - destruct (PrimFloat.is_nan m) eqn:Nm; [now right | left; now apply float_eqb_refl].
  - intros Hall. rewrite Forall_forall in Hall.
    eapply Hall, nth_error_In, Hnth.
  - intros Hs j p tj Hp Heq Htj.
    destruct (eqb_not_nan Heq) as [Np Nm].
    assert (Hij : (i <= j)%nat).
    { destruct (Nat.le_gt_cases i j) as [|Hji]; [assumption|].
      destruct (Hbefore j p Hji Hp) as [_ Hpm].
      rewrite (ltb_eqb_false (Hpm Nm)) in Heq. discriminate. }
    split; [assumption|].
    destruct (Nat.eq_dec i j) as [<-|Hne].
    + assert (tj = t) as -> by congruence.
      split; [apply ltb_irrefl | apply leb_refl].
    + assert (Hle : PrimFloat.leb tj t = true).
      { apply (non_increasing_nth _ Hs (i := i) (j := j)); [lia | assumption..]. }
      split; [now apply leb_ltb_false | auto].
Qed.

(** Two profits tie for the maximum: the first of them is selected. *)
Example find_best_threshold_tie :
  find_best_threshold [0.9; 0.6; 0.4; 0.1] [1; 3; 3; 2] = Ok (0.6, 3).
Proof. vm_compute. reflexivity. Qed.

Lemma find_best_threshold_first_maximum_witness :
  length [0.9; 0.6; 0.4; 0.1] = length [1; 3; 3; 2] /\
  (0 < length [1; 3; 3; 2])%nat /\
  exists i t pi m,
    find_best_threshold [0.9; 0.6; 0.4; 0.1] [1; 3; 3; 2] = Ok (t, m) /\
    nth_error [0.9; 0.6; 0.4; 0.1] i = Some t /\
    nth_error [1; 3; 3; 2] i = Some pi /\
    (PrimFloat.eqb m pi = true \/
     (PrimFloat.is_nan m = true /\ PrimFloat.is_nan pi = true)) /\
    (Forall not_nan [1; 3; 3; 2] -> not_nan m) /\
    (not_nan m -> forall p, In p [1; 3; 3; 2] -> PrimFloat.leb p m = true) /\
    (forall j p, (j < i)%nat -> nth_error [1; 3; 3; 2] j = Some p ->
       not_nan p /\ (not_nan m -> PrimFloat.ltb p m = true)) /\
    (non_increasing [0.9; 0.6; 0.4; 0.1] = true ->
     forall j p tj, nth_error [1; 3; 3; 2] j = Some p -> PrimFloat.eqb p m = true ->
       nth_error [0.9; 0.6; 0.4; 0.1] j = Some tj ->
       (i <= j)%nat /\ PrimFloat.ltb t tj = false /\
       (not_nan t -> PrimFloat.leb tj t = true)).
Proof.
  split; [reflexivity|]. split; [cbn; lia|].
  apply (@find_best_threshold_first_maximum [0.9; 0.6; 0.4; 0.1] [1; 3; 3; 2]);
    [reflexivity | cbn; lia].
Defined.

(** C7, as stated, fails: on zero-length vectors [profit_curve] raises
    nothing, in particular no [EmptyInputError]; it returns two empty
    sequences. *)
Lemma profit_curve_empty_no_error :
  profit_curve costbenefit costbenefit [] [] = Ok ([], []) /\
  profit_curve costbenefit costbenefit [] [] <> Raise EmptyInputError.
Proof. split; [reflexivity | discriminate]. Qed.

(** C7, amended: on zero-length vectors the sweep has no threshold, so no
    matrix is built, no division is executed and the two empty sequences
    are returned without error.  Whenever [profit_curve] returns for N
    observations (N below 2^63, as a count is), it returns N profits, each
    of them line 98 evaluated on the matrix built at its threshold and
    divided by the conversion of N; as soon as N is not 0 that divisor is
    a float above zero, so no division by zero is computed.  The same
    holds of every profit the loop body computes, also in a run that
    raises later. *)
Theorem profit_curve_empty_returns_empty :
  (forall g CB : array2x2 Z, profit_curve g CB [] [] = Ok ([], [])) /\
  (forall (g CB : array2x2 Z) (P : list float) (Y : list Z)
          (thresholds profits : list float),
     (Z.of_nat (length P) < 2 ^ 63)%Z ->
     profit_curve g CB P Y = Ok (thresholds, profits) ->
     length profits = length P /\
     Forall2 (divided_profit g P Y) thresholds profits /\
     ((0 < length P)%nat ->
      PrimFloat.ltb 0 (float_of_Z (Z.of_nat (length P))) = true /\
      PrimFloat.eqb (float_of_Z (Z.of_nat (length P))) 0 = false)) /\
  (forall (g : array2x2 Z) (P : list float) (Y : list Z) (t : float) (cm : array2x2 Z),
     (Z.of_nat (length P) < 2 ^ 63)%Z ->
     In t (sorted_reverse P) ->
     standard_confusion_matrix Y (bool_labels (y_pred_at P t)) = Ok cm ->
     expected_profit g cm
       = normalized_profit g cm (float_of_Z (Z.of_nat (length P))) /\
     PrimFloat.ltb 0 (float_of_Z (Z.of_nat (length P))) = true /\
     PrimFloat.eqb (float_of_Z (Z.of_nat (length P))) 0 = false).
Proof.
  split; [reflexivity|]. split.
  - intros g CB P Y thresholds profits HN Hpc.
    apply profit_curve_inv in Hpc as [-> Hall].
    split; [rewrite <- (Forall2_length Hall); apply sorted_reverse_length|].
    split.
    + eapply Forall2_impl; [|exact Hall]. intros t p. apply profit_at_divided.
    + intros Hpos.
      assert (Hz : (1 <= Z.of_nat (length P) < 2 ^ 63)%Z) by lia.
      split; [now apply float_of_Z_pos | now apply float_of_Z_nonzero].
  - intros g P Y t cm HN Ht Hcm.
    assert (Hd : divided_profit g P Y t (expected_profit g cm)).
    { apply profit_at_divided. exists cm. auto. }
    destruct Hd as (cm' & Hcm' & _ & Hp).
    rewrite Hcm in Hcm'. injection Hcm' as <-.
    split; [exact Hp|].
    apply (proj1 (@sorted_reverse_In _ _)) in Ht.
    assert (Hz : (1 <= Z.of_nat (length P) < 2 ^ 63)%Z).
    { destruct P; [contradiction | cbn [length] in *; lia]. }
    split; [now apply float_of_Z_pos | now apply float_of_Z_nonzero].
Qed.

Lemma profit_curve_empty_returns_empty_witness :
  (length [-2.5; 1.25; 5; 2.5] = length [0.9; 0.6; 0.4; 0.1] /\
   Forall2 (divided_profit costbenefit [0.9; 0.6; 0.4; 0.1] [1; 1; 0; 0]%Z)
           [0.9; 0.6; 0.4; 0.1] [-2.5; 1.25; 5; 2.5] /\
   (lt 0%nat (length [0.9; 0.6; 0.4; 0.1]) ->
    PrimFloat.ltb 0 (float_of_Z (Z.of_nat (length [0.9; 0.6; 0.4; 0.1]))) = true /\
    PrimFloat.eqb (float_of_Z (Z.of_nat (length [0.9; 0.6; 0.4; 0.1]))) 0 = false)) /\
  (expected_profit costbenefit (Array2x2 2 0 0 2)%Z
     = normalized_profit costbenefit (Array2x2 2 0 0 2)%Z
         (float_of_Z (Z.of_nat (length [0.9; 0.6; 0.4; 0.1]))) /\
   PrimFloat.ltb 0 (float_of_Z (Z.of_nat (length [0.9; 0.6; 0.4; 0.1]))) = true /\
   PrimFloat.eqb (float_of_Z (Z.of_nat (length [0.9; 0.6; 0.4; 0.1]))) 0 = false).
Proof.
  split.
  - apply (proj1 (proj2 profit_curve_empty_returns_empty)
             costbenefit costbenefit [0.9; 0.6; 0.4; 0.1] [1; 1; 0; 0]%Z).
    + cbn. lia.
    + vm_compute. reflexivity.
  - apply (proj2 (proj2 profit_curve_empty_returns_empty)
             costbenefit [0.9; 0.6; 0.4; 0.1] [1; 1; 0; 0]%Z 0.4).
    + cbn. lia.
    + vm_compute. right; right; left; reflexivity.
    + vm_compute. reflexivity.
Defined.


(** C9: inside the sweep observation [i] is positive iff [P[i] > t], in
    the final report iff [P[i] >= t].  The two agree on every observation
    whose probability differs from [t] and disagree exactly on those with
    [P[i] == t], which the sweep calls negative and the report positive.
    On the scenario's input the selected threshold 0.4 is the third
    probability, and the two classifications differ there. *)
Theorem threshold_rules_differ_at_equality :
  (forall (P : list float) (t : float) (i : nat) (p : float),
     nth_error P i = Some p ->
     nth_error (y_pred_at P t) i = Some (np_gt p t) /\
     nth_error (final_prediction P t) i = Some (np_ge p t) /\
     (np_eq p t = false -> np_gt p t = np_ge p t) /\
     (np_eq p t = true -> np_gt p t = false /\ np_ge p t = true)) /\
  (let P := [0.9; 0.6; 0.4; 0.1] in
   exists thresholds profits t m,
     profit_curve costbenefit costbenefit P [1; 1; 0; 0]%Z = Ok (thresholds, profits) /\
     find_best_threshold thresholds profits = Ok (t, m) /\
     nth_error P 2 = Some t /\
     y_pred_at P t = [true; true; false; false] /\
     final_prediction P t = [true; true; true; false]).
Proof.
  split.
  - intros P t i p Hp. unfold y_pred_at, final_prediction.
    rewrite !nth_error_map, Hp. cbn [option_map].
    split; [reflexivity|]. split; [reflexivity|].
    unfold np_gt, np_ge, np_eq. rewrite (leb_ltb_eqb t p).
    split; intros Heq; rewrite Heq.
    + now rewrite xorb_false_r.
    + destruct (PrimFloat.ltb t p) eqn:E; [|auto].
      destruct (ltb_not_nan E) as [Nt Np].
      destruct (float_cmp_cases Nt Np); congruence.
  - cbn zeta. do 4 eexists. repeat split; vm_compute; reflexivity.
Qed.

Lemma threshold_rules_differ_at_equality_witness :
  nth_error [0.9; 0.6; 0.4; 0.1] 2 = Some 0.4 /\
  nth_error (y_pred_at [0.9; 0.6; 0.4; 0.1] 0.4) 2 = Some (np_gt 0.4 0.4) /\
  nth_error (final_prediction [0.9; 0.6; 0.4; 0.1] 0.4) 2 = Some (np_ge 0.4 0.4) /\
  (np_eq 0.4 0.4 = false -> np_gt 0.4 0.4 = np_ge 0.4 0.4) /\
  (np_eq 0.4 0.4 = true -> np_gt 0.4 0.4 = false /\ np_ge 0.4 0.4 = true).
Proof.
  split; [reflexivity|].
  apply (proj1 threshold_rules_differ_at_equality [0.9; 0.6; 0.4; 0.1] 0.4 2%nat).
  reflexivity.
Defined.

(** C10: [standard_confusion_matrix] returns a matrix exactly when the two
    vectors have equal lengths and exactly two distinct values occur in
    them together.  When all true and all predicted labels are one and the
    same class, the library table is 1x1 and the unpacking fails.  Every
    failure is a [ValueError], never the specification's [InvalidLabel] or
    [ShapeMismatch].  In the sweep this happens at the largest threshold,
    where every prediction is negative, when the labels are all
    negative. *)
Theorem standard_confusion_matrix_needs_two_classes :
  (forall y_true y_predict : list Z,
     (exists cm, standard_confusion_matrix y_true y_predict = Ok cm) <->
     length y_true = length y_predict /\
     length (unique_labels y_true y_predict) = 2%nat) /\
  (forall (y_true y_predict : list Z) (e : exn),
     standard_confusion_matrix y_true y_predict = Raise e ->
     e = ValueError /\ e <> InvalidLabel /\ e <> ShapeMismatch) /\
  (forall (c : Z) (y_true y_predict : list Z),
     length y_true = length y_predict -> (0 < length y_true)%nat ->
     Forall (eq c) y_true -> Forall (eq c) y_predict ->
     confusion_matrix y_true y_predict = Ok [[Z.of_nat (length y_true)]] /\
     standard_confusion_matrix y_true y_predict = Raise ValueError) /\
  (forall (g CB : array2x2 Z) (P : list float) (Y : list Z),
     length P = length Y -> (0 < length Y)%nat ->
     Forall (eq 0%Z) Y -> Forall not_nan P ->
     exists t rest,
       sorted_reverse P = t :: rest /\
       Forall (eq 0%Z) (bool_labels (y_pred_at P t)) /\
       standard_confusion_matrix Y (bool_labels (y_pred_at P t)) = Raise ValueError /\
       profit_curve g CB P Y = Raise ValueError).
Proof.
  split; [exact standard_confusion_matrix_defined|].
  split; [|split].
  - intros y_true y_predict e H.
    apply standard_confusion_matrix_raises in H. subst. repeat split; discriminate.
  - intros c y_true y_predict Hlen Hpos Hy Hp.
    apply single_class_table with (c := c); auto.
    destruct y_true; [cbn in Hpos; lia | discriminate].
  - intros g CB P Y Hlen Hpos Hy Np.
    assert (Hne : Y <> []) by (destruct Y; [cbn in Hpos; lia | discriminate]).
    destruct (sorted_reverse P) as [|t rest] eqn:E.
    { apply (f_equal (@length float)) in E. rewrite sorted_reverse_length in E.
      cbn in E. lia. }
    exists t, rest. split; [reflexivity|].
    assert (Hneg : Forall (eq 0%Z) (bool_labels (y_pred_at P t))).
    { unfold bool_labels, y_pred_at. rewrite map_map. apply Forall_map.
      apply Forall_forall. intros p Hp. unfold np_gt.
      now rewrite (leb_ltb_false (sorted_reverse_head Np E p Hp)). }
    split; [exact Hneg|]. split.
    + apply single_class_table with (c := 0%Z); auto.
      now rewrite y_pred_at_length.
    + now apply profit_curve_all_negative.
Qed.

Lemma standard_confusion_matrix_needs_two_classes_witness :
  (confusion_matrix [0; 0]%Z [0; 0]%Z = Ok [[Z.of_nat (length [0; 0]%Z)]] /\
   standard_confusion_matrix [0; 0]%Z [0; 0]%Z = Raise ValueError) /\
  (exists t rest,
     sorted_reverse [0.7; 0.2] = t :: rest /\
     Forall (eq 0%Z) (bool_labels (y_pred_at [0.7; 0.2] t)) /\
     standard_confusion_matrix [0; 0]%Z (bool_labels (y_pred_at [0.7; 0.2] t))
       = Raise ValueError /\
     profit_curve costbenefit costbenefit [0.7; 0.2] [0; 0]%Z = Raise ValueError).
Proof.
  split.
  - apply (proj1 (proj2 (proj2 standard_confusion_matrix_needs_two_classes)) 0%Z);
      [reflexivity | cbn; lia | repeat constructor | repeat constructor].
  - apply (proj2 (proj2 (proj2 standard_confusion_matrix_needs_two_classes)));
      [reflexivity | cbn; lia | repeat constructor | repeat constructor; reflexivity].
Defined.

(** * Further properties of the notebook's functions *)

(** ** [standard_confusion_matrix] with labels other than 0 and 1 *)

Lemma unique_labels_pair (a b : Z) (y_true y_pred : list Z) :
  (a < b)%Z ->
  (forall z, In z y_true \/ In z y_pred -> z = a \/ z = b) ->
  In a y_true \/ In a y_pred ->
  In b y_true \/ In b y_pred ->
  unique_labels y_true y_pred = [a; b].
Proof.
  intros Hab Hall Ha Hb.
  pose proof (unique_labels_sorted y_true y_pred) as Hs.
  rewrite <- unique_labels_In in Ha, Hb.
  assert (Hin : forall z, In z (unique_labels y_true y_pred) -> z = a \/ z = b).
  { intros z Hz. apply Hall. now apply unique_labels_In. }
  destruct (unique_labels y_true y_pred) as [|x l]; [contradiction|].
  inversion Hs as [|? ? Hs' Hx]; subst. rewrite Forall_forall in Hx.
  assert (x = a) as ->.
  { destruct (Hin x (or_introl eq_refl)) as [->| ->]; [reflexivity|].
    destruct Ha as [Ha|Ha]; [lia|]. apply Hx in Ha. lia. }
  destruct Hb as [Hb|Hb]; [lia|].
  destruct l as [|y l]; [contradiction|].
  inversion Hs' as [|? ? Hs'' Hy]; subst. rewrite Forall_forall in Hy.
  assert (y = b) as ->.
  { specialize (Hx y (or_introl eq_refl)).
    destruct (Hin y (or_intror (or_introl eq_refl))); lia. }
  destruct l as [|z l]; [reflexivity|].
  specialize (Hy z (or_introl eq_refl)).
  destruct (Hin z (or_intror (or_intror (or_introl eq_refl)))); lia.
Qed.

(** X1: when the two vectors have equal lengths and hold exactly the two
    labels [a < b] between them, the larger label [b] is taken as the
    positive class whatever the two values are: the result is
    [[#(b,b), #(a,b)], [#(b,a), #(a,a)]] over pairs (actual, predicted). *)
Theorem standard_confusion_matrix_larger_label_positive
    (a b : Z) (y_true y_predict : list Z) :
  (a < b)%Z ->
  length y_true = length y_predict ->
  Forall (fun y => y = a \/ y = b) (y_true ++ y_predict) ->
  In a (y_true ++ y_predict) -> In b (y_true ++ y_predict) ->
  standard_confusion_matrix y_true y_predict =
    Ok (Array2x2 (count_pairs b b (combine y_true y_predict))
                 (count_pairs a b (combine y_true y_predict))
                 (count_pairs b a (combine y_true y_predict))
                 (count_pairs a a (combine y_true y_predict))).
Proof.
  intros Hab Hlen Hall Ha Hb.
  apply standard_confusion_matrix_two; [assumption|].
  rewrite Forall_forall in Hall.
  apply unique_labels_pair; [assumption | | now apply in_app_or..].
  intros z Hz. apply Hall, in_or_app, Hz.
Qed.

Lemma standard_confusion_matrix_larger_label_positive_witness :
  standard_confusion_matrix [1; 2; 2; 1]%Z [2; 2; 1; 1]%Z =
    Ok (Array2x2 (count_pairs 2 2 (combine [1; 2; 2; 1] [2; 2; 1; 1]))
                 (count_pairs 1 2 (combine [1; 2; 2; 1] [2; 2; 1; 1]))
                 (count_pairs 2 1 (combine [1; 2; 2; 1] [2; 2; 1; 1]))
                 (count_pairs 1 1 (combine [1; 2; 2; 1] [2; 2; 1; 1])))%Z.
Proof.
  apply (@standard_confusion_matrix_larger_label_positive 1 2 [1; 2; 2; 1] [2; 2; 1; 1])%Z.
  - lia.
  - reflexivity.
  - repeat (constructor; [lia|]). constructor.
  - cbn. lia.
  - cbn. lia.
Defined.

(** ** When [profit_curve] returns *)

Lemma profit_loop_raises (cb : array2x2 Z) (probabilities : list float)
    (y_true : list Z) (threshold : list float) :
  forall (profit : list float) (e : exn),
    profit_loop cb probabilities y_true threshold profit = Raise e -> e = ValueError.
Proof.
  induction threshold as [|t ts IH]; intros profit e H; [discriminate|].
  cbn [profit_loop] in H.
  destruct (standard_confusion_matrix y_true (bool_labels (y_pred_at probabilities t)))
    as [cm|e'] eqn:Hcm; cbn [bind] in H.
  - eapply IH, H.
  - injection H as <-. eapply standard_confusion_matrix_raises, Hcm.
Qed.

Lemma profit_curve_raises (cb cost_benefit_matrix : array2x2 Z)
    (probabilities : list float) (y_true : list Z) (e : exn) :
  profit_curve cb cost_benefit_matrix probabilities y_true = Raise e -> e = ValueError.
Proof.
  unfold profit_curve. intros H.
  destruct (profit_loop cb probabilities y_true (sorted_reverse probabilities) [])
    as [ps|e'] eqn:Hl; cbn [bind] in H; [discriminate|].
  injection H as <-. eapply profit_loop_raises, Hl.
Qed.

(** X2: every failure of [profit_curve], on any input, is a
    [ValueError]; and for equal-length inputs with 0/1 labels and
    probabilities that are not NaN, [profit_curve] returns exactly when the
    input is empty or some label is positive. *)
Theorem profit_curve_returns_iff :
  (forall (g CB : array2x2 Z) (P : list float) (Y : list Z) (e : exn),
     profit_curve g CB P Y = Raise e -> e = ValueError) /\
  (forall (g CB : array2x2 Z) (P : list float) (Y : list Z),
     length P = length Y -> binary_labels Y -> Forall not_nan P ->
     ((exists r, profit_curve g CB P Y = Ok r) <-> (P = [] \/ In 1%Z Y))).
Proof.
  split; [intros g CB P Y e; apply profit_curve_raises|].
  intros g CB P Y Hlen Hbin Np.
  split.
  - intros [r Hr].
    destruct P as [|p P]; [now left|]. right.
    destruct (in_dec Z.eq_dec 1%Z Y) as [H1|H1]; [assumption|]. exfalso.
    assert (Hz : Forall (eq 0%Z) Y).
    { unfold binary_labels in Hbin. rewrite Forall_forall in Hbin.
      apply Forall_forall. intros y Hy.
      destruct (Hbin y Hy) as [->| ->]; [reflexivity | contradiction]. }
    assert (Hne : Y <> []) by (destruct Y; [discriminate Hlen | discriminate]).
    rewrite (@profit_curve_all_negative g CB (p :: P) Y Hlen Hne Hz Np) in Hr.
    discriminate.
  - intros [->|H1].
    + eexists. reflexivity.
    + destruct (@profit_curve_returns g CB P Y Hlen Hbin H1) as (ps & Hps & _).
      eexists. exact Hps.
Qed.

Lemma profit_curve_returns_iff_witness :
  (profit_curve costbenefit costbenefit [0.7; 0.2] [0; 0; 1]%Z = Raise ValueError ->
   ValueError = ValueError) /\
  ((exists r, profit_curve costbenefit costbenefit [0.7; 0.2] [0; 0]%Z = Ok r)
     <-> ([0.7; 0.2] = [] \/ In 1%Z [0; 0]%Z)).
Proof.
  split.
  - apply (proj1 profit_curve_returns_iff costbenefit costbenefit [0.7; 0.2] [0; 0; 1]%Z).
  - apply (proj2 profit_curve_returns_iff costbenefit costbenefit [0.7; 0.2] [0; 0]%Z).
    + reflexivity.
    + unfold binary_labels. repeat (constructor; [lia|]). constructor.
    + repeat (constructor; [reflexivity|]). constructor.
Defined.

(** X3: lengths are compared only inside the loop.  With probabilities
    present and a label vector of another length the call raises
    [ValueError]; with no probabilities it returns two empty sequences
    whatever the label vector holds. *)
Theorem profit_curve_length_mismatch (g CB : array2x2 Z) (P : list float) (Y : list Z) :
  length P <> length Y ->
  ((0 < length P)%nat -> profit_curve g CB P Y = Raise ValueError) /\
  (length P = 0%nat -> profit_curve g CB P Y = Ok ([], [])).
Proof.
  intros Hne. split.
  - intros Hpos. unfold profit_curve.
    destruct (sorted_reverse P) as [|t rest] eqn:E.
    { apply (f_equal (@length float)) in E. rewrite sorted_reverse_length in E.
      cbn in E. lia. }
    rewrite profit_loop_raise with (e := ValueError); [reflexivity|].
    unfold standard_confusion_matrix, confusion_matrix.
    rewrite y_pred_at_length.
    destruct (Nat.eqb_spec (length Y) (length P)); [congruence | reflexivity].
  - intros H0. destruct P; [reflexivity | discriminate].
Qed.

Lemma profit_curve_length_mismatch_witness :
  (profit_curve costbenefit costbenefit [0.7; 0.2] [1; 0; 1]%Z = Raise ValueError) /\
  (profit_curve costbenefit costbenefit [] [1; 0; 1]%Z = Ok ([], [])).
Proof.
  split.
  - apply (@profit_curve_length_mismatch costbenefit costbenefit [0.7; 0.2] [1; 0; 1]%Z);
      [cbn; lia | cbn; lia].
  - apply (@profit_curve_length_mismatch costbenefit costbenefit [] [1; 0; 1]%Z);
      [cbn; lia | reflexivity].
Defined.

(** ** Thresholds that compare equal, thresholds that are lowered *)

Lemma eqb_ltb_congr (t1 t2 p : float) :
  PrimFloat.eqb t1 t2 = true -> PrimFloat.ltb t1 p = PrimFloat.ltb t2 p.
Proof.
  intros H. destruct (eqb_not_nan H) as [N1 N2].
  destruct (PrimFloat.is_nan p) eqn:Np.
  - destruct (@cmp_nan t1 p (or_intror Np)) as (-> & _).
    destruct (@cmp_nan t2 p (or_intror Np)) as (-> & _). reflexivity.
  - destruct (float_cmp_cases N1 N2); try congruence;
    destruct (float_cmp_cases N1 Np); destruct (float_cmp_cases N2 Np);
      try congruence; exfalso; key_lia.
Qed.

Lemma y_pred_at_eqb (probabilities : list float) (t1 t2 : float) :
  PrimFloat.eqb t1 t2 = true ->
  y_pred_at probabilities t1 = y_pred_at probabilities t2.
Proof.
  intros H. unfold y_pred_at, np_gt. apply map_ext.
  intros p. now apply eqb_ltb_congr.
Qed.

Lemma Forall2_nth_error_l {A B : Type} (R : A -> B -> Prop) (l : list A) (l' : list B) :
  Forall2 R l l' ->
  forall i a, nth_error l i = Some a -> exists b, nth_error l' i = Some b /\ R a b.
Proof.
  induction 1 as [|x y l l' Hxy _ IH]; intros [|i] a Ha; try discriminate.
  - injection Ha as <-. exists y. auto.
  - cbn in Ha |- *. eauto.
Qed.

(** X4: two entries of the returned thresholds that compare equal (in
    particular duplicated probabilities, or +0.0 and -0.0) carry the same
    prediction vector and the same profit. *)
Theorem profit_curve_equal_thresholds_equal_profits
    (g CB : array2x2 Z) (P : list float) (Y : list Z)
    (thresholds profits : list float) (i j : nat) (t1 t2 : float) :
  profit_curve g CB P Y = Ok (thresholds, profits) ->
  nth_error thresholds i = Some t1 -> nth_error thresholds j = Some t2 ->
  PrimFloat.eqb t1 t2 = true ->
  y_pred_at P t1 = y_pred_at P t2 /\
  nth_error profits i = nth_error profits j /\
  exists p, nth_error profits i = Some p.
Proof.
  intros Hpc Hi Hj Heq.
  pose proof (y_pred_at_eqb P Heq) as Hy. split; [exact Hy|].
  apply profit_curve_inv in Hpc as [_ Hall].
  destruct (Forall2_nth_error_l Hall _ Hi) as (p1 & Hp1 & cm1 & Hcm1 & ->).
  destruct (Forall2_nth_error_l Hall _ Hj) as (p2 & Hp2 & cm2 & Hcm2 & ->).
  rewrite Hy, Hcm2 in Hcm1. injection Hcm1 as ->.
  rewrite Hp1, Hp2. split; [reflexivity | eauto].
Qed.

Lemma profit_curve_equal_thresholds_equal_profits_witness :
  y_pred_at [0.5; 0.5; 0.2] 0.5 = y_pred_at [0.5; 0.5; 0.2] 0.5 /\
  nth_error [-3.333333333333333; -3.333333333333333; -1.6666666666666665] 0
    = nth_error [-3.333333333333333; -3.333333333333333; -1.6666666666666665] 1 /\
  exists p,
    nth_error [-3.333333333333333; -3.333333333333333; -1.6666666666666665] 0 = Some p.
Proof.
  apply (@profit_curve_equal_thresholds_equal_profits costbenefit costbenefit
           [0.5; 0.5; 0.2] [0; 1; 1]%Z [0.5; 0.5; 0.2]
           [-3.333333333333333; -3.333333333333333; -1.6666666666666665]
           0 1 0.5 0.5);
    vm_compute; reflexivity.
Defined.

Lemma predicted_positives_filter (probabilities : list float) (t : float) :
  predicted_positives (y_pred_at probabilities t)
  = length (filter (fun p => PrimFloat.ltb t p) probabilities).
Proof.
  unfold predicted_positives, y_pred_at, np_gt.
  induction probabilities as [|p ps IH]; [reflexivity|].
  cbn [map filter]. destruct (PrimFloat.ltb t p); cbn [length]; now rewrite IH.
Qed.

(** X5: lowering the threshold never turns a positive prediction into a
    negative one, so the number of observations flagged positive does not
    decrease. *)
Theorem lower_threshold_keeps_positives (P : list float) (t1 t2 : float) :
  PrimFloat.leb t2 t1 = true ->
  (forall i, nth_error (y_pred_at P t1) i = Some true ->
             nth_error (y_pred_at P t2) i = Some true) /\
  (predicted_positives (y_pred_at P t1) <= predicted_positives (y_pred_at P t2))%nat.
Proof.
  intros Hle.
  assert (Hmono : forall p, PrimFloat.ltb t1 p = true -> PrimFloat.ltb t2 p = true).
  { intros p Hp. now apply leb_ltb_trans with t1. }
  split.
  - intros i. unfold y_pred_at, np_gt. rewrite !nth_error_map.
    destruct (nth_error P i) as [p|]; cbn [option_map]; [|discriminate].
    intros H. injection H as H. now rewrite (Hmono p H).
  - rewrite !predicted_positives_filter.
    induction P as [|p ps IH]; [reflexivity|]. cbn [filter].
    destruct (PrimFloat.ltb t1 p) eqn:E1.
    + rewrite (Hmono p E1). cbn [length]. lia.
    + destruct (PrimFloat.ltb t2 p); cbn [length]; lia.
Qed.

Lemma lower_threshold_keeps_positives_witness :
  (forall i, nth_error (y_pred_at [0.9; 0.6; 0.4; 0.1] 0.6) i = Some true ->
             nth_error (y_pred_at [0.9; 0.6; 0.4; 0.1] 0.4) i = Some true) /\
  le (predicted_positives (y_pred_at [0.9; 0.6; 0.4; 0.1] 0.6))
     (predicted_positives (y_pred_at [0.9; 0.6; 0.4; 0.1] 0.4)).
Proof.
  apply (@lower_threshold_keeps_positives [0.9; 0.6; 0.4; 0.1] 0.6 0.4).
  reflexivity.
Defined.

(** ** How many observations the sweep flags *)

Lemma filter_length_perm {A : Type} (f : A -> bool) (l l' : list A) :
  Permutation l l' -> length (filter f l) = length (filter f l').
Proof.
  induction 1 as [|x l l' _ IH|x y l|l l' l'' _ IH1 _ IH2]; cbn [filter].
  - reflexivity.
  - destruct (f x); cbn [length]; now rewrite IH.
  - destruct (f x), (f y); reflexivity.
  - now rewrite IH1.
Qed.

Lemma filter_none {A : Type} (f : A -> bool) (l : list A) :
  Forall (fun x => f x = false) l -> filter f l = [].
Proof.
  induction 1 as [|x l Hx _ IH]; [reflexivity|]. cbn. now rewrite Hx.
Qed.

Lemma filter_all {A : Type} (f : A -> bool) (l : list A) :
  Forall (fun x => f x = true) l -> filter f l = l.
Proof.
  induction 1 as [|x l Hx _ IH]; [reflexivity|]. cbn. now rewrite Hx, IH.
Qed.

Lemma filter_length_bound {A : Type} (f : A -> bool) (l : list A) :
  (length (filter f l) <= length l)%nat.
Proof.
  induction l as [|x l IH]; [reflexivity|]. cbn.
  destruct (f x); cbn [length]; lia.
Qed.

(** The observations flagged at the threshold of index [k] are those
    among the first [k] sorted probabilities that exceed it. *)
Lemma sweep_count_firstn (P : list float) (k : nat) (t : float) :
  Forall not_nan P ->
  nth_error (sorted_reverse P) k = Some t ->
  predicted_positives (y_pred_at P t)
    = length (filter (fun p => PrimFloat.ltb t p) (firstn k (sorted_reverse P))) /\
  length (firstn k (sorted_reverse P)) = k /\
  (k < length P)%nat.
Proof.
  intros Np Hk.
  pose proof (sorted_reverse_sorted Np) as Hs.
  assert (Nt : not_nan t).
  { rewrite Forall_forall in Np. eapply Np, sorted_reverse_In, nth_error_In, Hk. }
  assert (Hklen : (k < length (sorted_reverse P))%nat).
  { apply nth_error_Some. congruence. }
  assert (Hlate : filter (fun p => PrimFloat.ltb t p) (skipn k (sorted_reverse P)) = []).
  { apply filter_none, Forall_forall. intros x Hx.
    apply In_nth_error in Hx as [i Hi]. rewrite nth_error_skipn in Hi.
    apply leb_ltb_false.
    destruct i as [|i].
    - rewrite Nat.add_0_r, Hk in Hi. injection Hi as <-. now apply leb_refl.
    - apply (non_increasing_nth _ Hs (i := k) (j := (k + S i)%nat)); [lia | assumption..]. }
  split; [|split].
  - rewrite predicted_positives_filter.
    rewrite (filter_length_perm _ (sorted_reverse_perm P)).
    rewrite <- (firstn_skipn k (sorted_reverse P)) at 1.
    rewrite filter_app, length_app, Hlate. cbn [length]. lia.
  - apply firstn_length_le. lia.
  - now rewrite sorted_reverse_length in Hklen.
Qed.

(** X6: at the threshold of index [k] of the sweep (counting from 0) at
    most [k] observations are flagged positive, and exactly [k] when every
    earlier threshold differs from it.  Probabilities must not be NaN. *)
Theorem sweep_flags_at_most_index (P : list float) (k : nat) (t : float) :
  Forall not_nan P ->
  nth_error (sorted_reverse P) k = Some t ->
  (predicted_positives (y_pred_at P t) <= k)%nat /\
  ((forall j x, (j < k)%nat -> nth_error (sorted_reverse P) j = Some x ->
      PrimFloat.eqb x t = false) ->
   predicted_positives (y_pred_at P t) = k).
Proof.
  intros Np Hk.
  destruct (sweep_count_firstn _ Np Hk) as (Hcount & Hfirst & _).
  pose proof (sorted_reverse_sorted Np) as Hs.
  rewrite Hcount. split.
  - rewrite <- Hfirst at 2. apply filter_length_bound.
  - intros Hdistinct. rewrite filter_all; [exact Hfirst|].
    apply Forall_forall. intros x Hx.
    apply In_nth_error in Hx as [j Hj].
    assert (Hjk : (j < k)%nat).
    { rewrite <- Hfirst. apply nth_error_Some. congruence. }
    rewrite nth_error_firstn in Hj.
    destruct (Nat.ltb_spec j k); [|lia].
    pose proof (Hdistinct j x Hjk Hj) as Hne.
    pose proof (non_increasing_nth _ Hs Hjk Hj Hk) as Hle.
    rewrite (leb_ltb_eqb t x), Hne, xorb_false_r in Hle. exact Hle.
Qed.

Lemma sweep_flags_at_most_index_witness :
  le (predicted_positives (y_pred_at [0.5; 0.9; 0.5; 0.2] 0.5)) 2 /\
  ((forall j x, (j < 2)%nat -> nth_error (sorted_reverse [0.5; 0.9; 0.5; 0.2]) j = Some x ->
      PrimFloat.eqb x 0.5 = false) ->
   predicted_positives (y_pred_at [0.5; 0.9; 0.5; 0.2] 0.5) = 2%nat).
Proof.
  apply (@sweep_flags_at_most_index [0.5; 0.9; 0.5; 0.2] 2 0.5).
  - repeat (constructor; [reflexivity|]). constructor.
  - vm_compute. reflexivity.
Defined.

(** ** Row and column totals of the matrix *)

Lemma count_pairs_by_predicted (b : Z) (obs : list (Z * Z)) :
  Forall (fun yp => fst yp = 0 \/ fst yp = 1)%Z obs ->
  (count_pairs 1 b obs + count_pairs 0 b obs
   = Z.of_nat (length (filter (fun yp => (snd yp =? b)%Z) obs)))%Z.
Proof.
  induction 1 as [|[y p] obs Hy _ IH]; [reflexivity|].
  rewrite !count_pairs_cons. cbn [fst snd filter] in *.
  destruct (Z.eqb_spec y 1), (Z.eqb_spec y 0), (Z.eqb_spec p b);
    cbn [andb length]; lia.
Qed.

Lemma count_pairs_by_actual (a : Z) (obs : list (Z * Z)) :
  Forall (fun yp => snd yp = 0 \/ snd yp = 1)%Z obs ->
  (count_pairs a 1 obs + count_pairs a 0 obs
   = Z.of_nat (length (filter (fun yp => (fst yp =? a)%Z) obs)))%Z.
Proof.
  induction 1 as [|[y p] obs Hp _ IH]; [reflexivity|].
  rewrite !count_pairs_cons. cbn [fst snd filter] in *.
  destruct (Z.eqb_spec p 1), (Z.eqb_spec p 0), (Z.eqb_spec y a);
    cbn [andb length]; lia.
Qed.

Lemma combine_predicted_positives (ys : list Z) (bs : list bool) :
  length ys = length bs ->
  length (filter (fun yp => (snd yp =? 1)%Z) (combine ys (bool_labels bs)))
  = predicted_positives bs.
Proof.
  revert bs. unfold predicted_positives, bool_labels.
  induction ys as [|y ys IH]; intros [|b bs] Hlen; try discriminate; [reflexivity|].
  cbn [map combine filter snd]. injection Hlen as Hlen.
  destruct b; cbn [Z.b2z Z.eqb Pos.eqb length]; now rewrite IH.
Qed.

Lemma combine_actual_count (a : Z) (ys ps : list Z) :
  length ys = length ps ->
  length (filter (fun yp => (fst yp =? a)%Z) (combine ys ps))
  = count_occ Z.eq_dec ys a.
Proof.
  revert ps. induction ys as [|y ys IH]; intros [|p ps] Hlen; try discriminate;
    [reflexivity|].
  cbn [combine filter fst count_occ]. injection Hlen as Hlen.
  destruct (Z.eqb_spec y a), (Z.eq_dec y a); try congruence;
    cbn [length]; now rewrite IH.
Qed.

(** With 0/1 labels and a boolean prediction, a matrix that is built was
    read off the labels [0; 1]. *)
Lemma binary_matrix_labels (y_true : list Z) (bs : list bool) (cm : array2x2 Z) :
  binary_labels y_true ->
  standard_confusion_matrix y_true (bool_labels bs) = Ok cm ->
  length y_true = length bs /\
  cm = Array2x2 (count_pairs 1 1 (combine y_true (bool_labels bs)))
                (count_pairs 0 1 (combine y_true (bool_labels bs)))
                (count_pairs 1 0 (combine y_true (bool_labels bs)))
                (count_pairs 0 0 (combine y_true (bool_labels bs))).
Proof.
  intros Hbin H.
  apply standard_confusion_matrix_inv in H as (Hlen & a & b & Hl & ->).
  split; [unfold bool_labels in Hlen; now rewrite length_map in Hlen|].
  assert (Hin : forall z, In z (unique_labels y_true (bool_labels bs)) ->
                          (z = 0 \/ z = 1)%Z).
  { intros z Hz. apply unique_labels_In in Hz as [Hz|Hz].
    - unfold binary_labels in Hbin. rewrite Forall_forall in Hbin. auto.
    - eapply bool_labels_binary, Hz. }
  pose proof (unique_labels_sorted y_true (bool_labels bs)) as Hs.
  rewrite Hl in Hin, Hs.
  inversion Hs as [|? ? _ Hab]; subst. inversion Hab as [|? ? Hlt _]; subst.
  destruct (Hin a (or_introl eq_refl)), (Hin b (or_intror (or_introl eq_refl)));
    subst; try lia. reflexivity.
Qed.

(** X7: with 0/1 labels, whenever the matrix is built for a boolean
    prediction, its first row adds up to the number of observations
    flagged positive and its first column to the number of positive
    labels, which does not depend on the prediction; the other row and
    column hold the rest. *)
Theorem confusion_matrix_row_column_totals
    (y_true : list Z) (y_pred : list bool) (cm : array2x2 Z) :
  binary_labels y_true ->
  standard_confusion_matrix y_true (bool_labels y_pred) = Ok cm ->
  (a00 cm + a01 cm = Z.of_nat (predicted_positives y_pred))%Z /\
  (a10 cm + a11 cm = Z.of_nat (length y_true - predicted_positives y_pred))%Z /\
  (a00 cm + a10 cm = Z.of_nat (count_occ Z.eq_dec y_true 1))%Z /\
  (a01 cm + a11 cm = Z.of_nat (count_occ Z.eq_dec y_true 0))%Z.
Proof.
  intros Hbin Hcm.
  pose proof (standard_confusion_matrix_total _ _ Hcm) as Htot.
  destruct (binary_matrix_labels _ Hbin Hcm) as [Hlen ->].
  unfold cm_total in Htot. cbn [a00 a01 a10 a11] in *.
  set (obs := combine y_true (bool_labels y_pred)) in *.
  assert (Hfst : Forall (fun yp => fst yp = 0 \/ fst yp = 1)%Z obs).
  { apply Forall_forall. intros [y p] Hin. cbn [fst].
    unfold binary_labels in Hbin. rewrite Forall_forall in Hbin.
    eapply Hbin, in_combine_l, Hin. }
  assert (Hsnd : Forall (fun yp => snd yp = 0 \/ snd yp = 1)%Z obs).
  { apply Forall_forall. intros [y p] Hin. cbn [snd].
    eapply bool_labels_binary, in_combine_r, Hin. }
  assert (Hlen' : length y_true = length (bool_labels y_pred)).
  { unfold bool_labels. now rewrite length_map. }
  pose proof (count_pairs_by_predicted 1 Hfst) as Hrow.
  pose proof (count_pairs_by_actual 1 Hsnd) as Hc1.
  pose proof (count_pairs_by_actual 0 Hsnd) as Hc0.
  unfold obs in Hrow, Hc1, Hc0.
  rewrite (combine_predicted_positives _ _ Hlen) in Hrow.
  rewrite (combine_actual_count _ _ _ Hlen') in Hc1.
  rewrite (combine_actual_count _ _ _ Hlen') in Hc0.
  assert (Hpp : (predicted_positives y_pred <= length y_true)%nat).
  { rewrite Hlen. apply filter_length_bound. }
  fold obs in Hrow, Hc1, Hc0. lia.
Qed.

Lemma confusion_matrix_row_column_totals_witness :
  (a00 (Array2x2 1 1 1 1) + a01 (Array2x2 1 1 1 1)
   = Z.of_nat (predicted_positives [true; false; true; false]))%Z /\
  (a10 (Array2x2 1 1 1 1) + a11 (Array2x2 1 1 1 1)
   = Z.of_nat (length [1; 1; 0; 0]%Z - predicted_positives [true; false; true; false]))%Z /\
  (a00 (Array2x2 1 1 1 1) + a10 (Array2x2 1 1 1 1)
   = Z.of_nat (count_occ Z.eq_dec [1; 1; 0; 0]%Z 1))%Z /\
  (a01 (Array2x2 1 1 1 1) + a11 (Array2x2 1 1 1 1)
   = Z.of_nat (count_occ Z.eq_dec [1; 1; 0; 0]%Z 0))%Z.
Proof.
  apply (@confusion_matrix_row_column_totals [1; 1; 0; 0]%Z [true; false; true; false]
           (Array2x2 1 1 1 1)%Z).
  - unfold binary_labels. repeat (constructor; [lia|]). constructor.
  - vm_compute. reflexivity.
Defined.

(** X8: with 0/1 labels and probabilities that are not NaN, the matrix
    built at the threshold of index [k] of the sweep has non-negative
    cells, at most [k] observations in its first row (TP + FP) and at
    least one in its second (FN + TN): the sweep never evaluates the
    prediction that flags every observation, and at its first threshold
    TP = FP = 0. *)
Theorem sweep_matrix_bounds
    (P : list float) (Y : list Z) (k : nat) (t : float) (cm : array2x2 Z) :
  Forall not_nan P -> binary_labels Y ->
  nth_error (sorted_reverse P) k = Some t ->
  standard_confusion_matrix Y (bool_labels (y_pred_at P t)) = Ok cm ->
  (0 <= a00 cm /\ 0 <= a01 cm /\ 0 <= a10 cm /\ 0 <= a11 cm)%Z /\
  (a00 cm + a01 cm <= Z.of_nat k)%Z /\
  (1 <= a10 cm + a11 cm)%Z /\
  (k = 0%nat -> a00 cm = 0%Z /\ a01 cm = 0%Z).
Proof.
  intros Np Hbin Hk Hcm.
  destruct (sweep_count_firstn _ Np Hk) as (Hcount & Hfirst & Hklen).
  pose proof (standard_confusion_matrix_total _ _ Hcm) as Htot.
  destruct (binary_matrix_labels _ Hbin Hcm) as [Hlen ->].
  unfold cm_total in Htot. cbn [a00 a01 a10 a11] in *.
  set (obs := combine Y (bool_labels (y_pred_at P t))) in *.
  assert (Hfst : Forall (fun yp => fst yp = 0 \/ fst yp = 1)%Z obs).
  { apply Forall_forall. intros [y p] Hin. cbn [fst].
    unfold binary_labels in Hbin. rewrite Forall_forall in Hbin.
    eapply Hbin, in_combine_l, Hin. }
  pose proof (count_pairs_by_predicted 1 Hfst) as Hrow. unfold obs in Hrow.
  rewrite (combine_predicted_positives _ _ Hlen), Hcount in Hrow. fold obs in Hrow.
  pose proof (filter_length_bound (fun p => PrimFloat.ltb t p)
                (firstn k (sorted_reverse P))) as Hle.
  rewrite Hfirst in Hle.
  assert (HN : length Y = length P).
  { rewrite Hlen. unfold y_pred_at. now rewrite length_map. }
  pose proof (count_pairs_nonneg 1 1 obs). pose proof (count_pairs_nonneg 0 1 obs).
  pose proof (count_pairs_nonneg 1 0 obs). pose proof (count_pairs_nonneg 0 0 obs).
  repeat split; lia.
Qed.

Lemma sweep_matrix_bounds_witness :
  (0 <= a00 (Array2x2 1 0 1 2) /\ 0 <= a01 (Array2x2 1 0 1 2) /\
   0 <= a10 (Array2x2 1 0 1 2) /\ 0 <= a11 (Array2x2 1 0 1 2))%Z /\
  (a00 (Array2x2 1 0 1 2) + a01 (Array2x2 1 0 1 2) <= Z.of_nat 1)%Z /\
  (1 <= a10 (Array2x2 1 0 1 2) + a11 (Array2x2 1 0 1 2))%Z /\
  (1%nat = 0%nat -> (a00 (Array2x2 1 0 1 2) = 0 /\ a01 (Array2x2 1 0 1 2) = 0)%Z).
Proof.
  apply (@sweep_matrix_bounds [0.9; 0.6; 0.4; 0.1] [1; 1; 0; 0]%Z 1 0.6 (Array2x2 1 0 1 2)%Z).
  - repeat (constructor; [reflexivity|]). constructor.
  - unfold binary_labels. repeat (constructor; [lia|]). constructor.
  - vm_compute. reflexivity.
  - vm_compute. reflexivity.
Defined.

(** ** Outcomes of [find_best_threshold] *)

Lemma find_best_threshold_at (thresholds profits : list float) :
  profits <> [] ->
  exists i m,
    np_argmax profits = Ok i /\ np_max profits = Ok m /\
    nth_error profits i = Some m /\
    find_best_threshold thresholds profits =
      match nth_error thresholds i with
      | Some t => Ok (t, m)
      | None => Raise IndexError
      end.
Proof.
  intros Hne.
  destruct (np_argmax_np_max Hne) as (i & m & Hi & Hm & Hnth & _).
  exists i, m. repeat (split; [assumption|]).
  unfold find_best_threshold, getitem. rewrite Hi. cbn [bind].
  destruct (nth_error thresholds i); cbn [bind]; [|reflexivity].
  now rewrite Hm.
Qed.

(** X9: [find_best_threshold] raises [ValueError] on empty profits
    whatever the thresholds are; with at least as many thresholds as
    profits it returns, and the thresholds beyond the last profit play no
    part; its only other failure is an [IndexError], possible only when
    there are fewer thresholds than profits. *)
Theorem find_best_threshold_outcomes (thresholds profits : list float) :
  (length profits = 0%nat -> find_best_threshold thresholds profits = Raise ValueError) /\
  ((0 < length profits)%nat -> (length profits <= length thresholds)%nat ->
   exists t m,
     find_best_threshold thresholds profits = Ok (t, m) /\
     find_best_threshold (firstn (length profits) thresholds) profits = Ok (t, m)) /\
  (forall e, find_best_threshold thresholds profits = Raise e ->
     (length profits = 0%nat /\ e = ValueError) \/
     ((length thresholds < length profits)%nat /\ e = IndexError)).
Proof.
  split; [|split].
  - intros H0. destruct profits; [reflexivity | discriminate].
  - intros Hpos Hle.
    assert (Hne : profits <> []) by (destruct profits; [cbn in Hpos; lia | discriminate]).
    destruct (find_best_threshold_at thresholds Hne) as (i & m & Hi & Hm & Hnth & Hf).
    destruct (find_best_threshold_at (firstn (length profits) thresholds) Hne)
      as (i' & m' & Hi' & Hm' & _ & Hf').
    assert (i' = i) by congruence. assert (m' = m) by congruence. subst i' m'.
    assert (Hlt : (i < length profits)%nat) by (apply nth_error_Some; congruence).
    rewrite nth_error_firstn in Hf'.
    destruct (Nat.ltb_spec i (length profits)); [|lia].
    destruct (nth_error thresholds i) as [t|] eqn:Ht.
    + exists t, m. auto.
    + apply nth_error_None in Ht. lia.
  - intros e He.
    destruct profits as [|x xs] eqn:Ep.
    + left. split; [reflexivity|]. cbn in He. congruence.
    + right.
      assert (Hne : x :: xs <> []) by discriminate.
      destruct (find_best_threshold_at thresholds Hne) as (i & m & _ & _ & Hnth & Hf).
      rewrite Hf in He.
      destruct (nth_error thresholds i) eqn:Ht; [discriminate|].
      apply nth_error_None in Ht.
      assert (Hlt : (i < length (x :: xs))%nat) by (apply nth_error_Some; congruence).
      split; [lia | congruence].
Qed.

Lemma find_best_threshold_outcomes_witness :
  find_best_threshold [0.9; 0.6] [] = Raise ValueError /\
  (exists t m,
     find_best_threshold [0.9; 0.6; 0.4] [1; 3] = Ok (t, m) /\
     find_best_threshold (firstn (length [1; 3]) [0.9; 0.6; 0.4]) [1; 3] = Ok (t, m)) /\
  ((length (@nil float) = 0%nat /\ ValueError = ValueError) \/
   (lt (length [0.9; 0.6]) (length (@nil float)) /\ ValueError = IndexError)).
Proof.
  split; [|split].
  - apply (proj1 (find_best_threshold_outcomes [0.9; 0.6] [])). reflexivity.
  - apply (proj1 (proj2 (find_best_threshold_outcomes [0.9; 0.6; 0.4] [1; 3])));
      cbn; lia.
  - apply (proj2 (proj2 (find_best_threshold_outcomes [0.9; 0.6] []))). reflexivity.
Defined.

(** X10: when some profit is NaN, [find_best_threshold] returns a NaN as
    the maximum profit, together with the threshold at the position of
    the first NaN among the profits. *)
Theorem find_best_threshold_selects_first_nan
    (thresholds profits : list float) (k : nat) (x : float) :
  length thresholds = length profits ->
  nth_error profits k = Some x -> PrimFloat.is_nan x = true ->
  exists i t m,
    find_best_threshold thresholds profits = Ok (t, m) /\
    nth_error thresholds i = Some t /\ nth_error profits i = Some m /\
    PrimFloat.is_nan m = true /\ (i <= k)%nat /\
    (forall j p, (j < i)%nat -> nth_error profits j = Some p -> not_nan p).
Proof.
  intros Hlen Hk Nx.
  assert (Hne : profits <> []) by (destruct profits; [destruct k; discriminate | discriminate]).
  destruct (np_argmax_np_max Hne) as (i & m & Hi & Hm & Hnth & Hbefore & Hmax).
  assert (Nm : PrimFloat.is_nan m = true).
  { destruct (PrimFloat.is_nan m) eqn:E; [reflexivity|]. exfalso.
    pose proof (Hmax E x (nth_error_In _ _ Hk)) as Hle.
    destruct (leb_not_nan Hle) as [Hx _]. unfold not_nan in Hx. congruence. }
  assert (Hlt : (i < length thresholds)%nat).
  { rewrite Hlen. apply nth_error_Some. congruence. }
  destruct (nth_error thresholds i) as [t|] eqn:Ht;
    [|apply nth_error_None in Ht; lia].
  exists i, t, m. unfold find_best_threshold, getitem.
  rewrite Hi. cbn [bind]. rewrite Ht. cbn [bind]. rewrite Hm. cbn [bind].
  repeat (split; [reflexivity || assumption|]).
  split.
  - destruct (Nat.le_gt_cases i k) as [|Hki]; [assumption|]. exfalso.
    destruct (Hbefore k x Hki Hk) as [Hx _]. unfold not_nan in Hx. congruence.
  - intros j p Hj Hp. apply (Hbefore j p Hj Hp).
Qed.

Lemma find_best_threshold_selects_first_nan_witness :
  exists i t m,
    find_best_threshold [0.9; 0.6; 0.4] [1; PrimFloat.nan; 3] = Ok (t, m) /\
    nth_error [0.9; 0.6; 0.4] i = Some t /\
    nth_error [1; PrimFloat.nan; 3] i = Some m /\
    PrimFloat.is_nan m = true /\ (i <= 1)%nat /\
    (forall j p, (j < i)%nat -> nth_error [1; PrimFloat.nan; 3] j = Some p -> not_nan p).
Proof.
  apply (@find_best_threshold_selects_first_nan [0.9; 0.6; 0.4] [1; PrimFloat.nan; 3]
           1 PrimFloat.nan); reflexivity.
Defined.

(** ** The notebook's flow: curve, selection, report *)

(** X11: for equal-length non-empty inputs with 0/1 labels containing a
    positive one, the curve is built and the selection returns.  The
    selected threshold [t] stands at an index [k] of the curve whose
    profit [pk] is the maximum (the returned [m] compares equal to it and
    no profit exceeds it), and [pk] was computed from the prediction
    [P > t].  [t] is one of the probabilities; in that prediction the
    observation that holds it is negative, and the report made with [>=]
    flags it positive (unless it is NaN): the reported classification is
    never the one whose profit was selected. *)
Theorem selected_threshold_is_reported_positive
    (g CB : array2x2 Z) (P : list float) (Y : list Z) :
  length P = length Y -> (0 < length P)%nat ->
  binary_labels Y -> In 1%Z Y ->
  exists thresholds profits t m k pk i,
    profit_curve g CB P Y = Ok (thresholds, profits) /\
    find_best_threshold thresholds profits = Ok (t, m) /\
    nth_error thresholds k = Some t /\
    nth_error profits k = Some pk /\
    (PrimFloat.eqb m pk = true \/
     (PrimFloat.is_nan m = true /\ PrimFloat.is_nan pk = true)) /\
    (not_nan m -> forall p, In p profits -> PrimFloat.leb p m = true) /\
    (exists cm,
       standard_confusion_matrix Y (bool_labels (y_pred_at P t)) = Ok cm /\
       pk = expected_profit g cm) /\
    nth_error P i = Some t /\
    nth_error (y_pred_at P t) i = Some false /\
    (not_nan t ->
     nth_error (final_prediction P t) i = Some true /\
     final_prediction P t <> y_pred_at P t).
Proof.
  intros Hlen Hpos Hbin H1.
  destruct (@profit_curve_returns g CB P Y Hlen Hbin H1) as (ps & Hps & Hall).
  assert (Hlps : length ps = length P).
  { rewrite <- (Forall2_length Hall). apply sorted_reverse_length. }
  assert (Hne : ps <> []) by (destruct ps; [cbn in Hlps; lia | discriminate]).
  destruct (np_argmax_np_max Hne) as (k & m & Hk & Hm & Hnth & _ & Hmax).
  assert (Hlt : (k < length (sorted_reverse P))%nat).
  { rewrite sorted_reverse_length, <- Hlps. apply nth_error_Some. congruence. }
  destruct (nth_error (sorted_reverse P) k) as [t|] eqn:Ht;
    [|apply nth_error_None in Ht; lia].
  assert (Hf : find_best_threshold (sorted_reverse P) ps = Ok (t, m)).
  { unfold find_best_threshold, getitem.
    rewrite Hk. cbn [bind]. rewrite Ht. cbn [bind]. now rewrite Hm. }
  destruct (Forall2_nth_error_l Hall _ Ht) as (pk & Hpk & Hat).
  assert (pk = m) by congruence. subst pk.
  assert (HtP : In t P).
  { eapply sorted_reverse_In, nth_error_In, Ht. }
  apply In_nth_error in HtP as [n Hn].
  exists (sorted_reverse P), ps, t, m, k, m, n.
  split; [exact Hps|]. split; [exact Hf|]. split; [exact Ht|]. split; [exact Hnth|].
  split.
  { destruct (PrimFloat.is_nan m) eqn:Nm; [now right | left; now apply float_eqb_refl]. }
  split; [exact Hmax|]. split; [exact Hat|]. split; [exact Hn|].
  assert (Hsweep : nth_error (y_pred_at P t) n = Some false).
  { unfold y_pred_at. rewrite nth_error_map, Hn. cbn [option_map].
    unfold np_gt. now rewrite ltb_irrefl. }
  split; [exact Hsweep|].
  intros Nt.
  assert (Hfinal : nth_error (final_prediction P t) n = Some true).
  { unfold final_prediction. rewrite nth_error_map, Hn. cbn [option_map].
    unfold np_ge. now rewrite leb_refl. }
  split; [exact Hfinal|]. intros Heq. rewrite Heq in Hfinal. congruence.
Qed.

Lemma selected_threshold_is_reported_positive_witness :
  exists thresholds profits t m k pk i,
    profit_curve costbenefit costbenefit [0.3; 0.8; 0.5] [0; 1; 1]%Z
      = Ok (thresholds, profits) /\
    find_best_threshold thresholds profits = Ok (t, m) /\
    nth_error thresholds k = Some t /\
    nth_error profits k = Some pk /\
    (PrimFloat.eqb m pk = true \/
     (PrimFloat.is_nan m = true /\ PrimFloat.is_nan pk = true)) /\
    (not_nan m -> forall p, In p profits -> PrimFloat.leb p m = true) /\
    (exists cm,
       standard_confusion_matrix [0; 1; 1]%Z (bool_labels (y_pred_at [0.3; 0.8; 0.5] t))
         = Ok cm /\
       pk = expected_profit costbenefit cm) /\
    nth_error [0.3; 0.8; 0.5] i = Some t /\
    nth_error (y_pred_at [0.3; 0.8; 0.5] t) i = Some false /\
    (not_nan t ->
     nth_error (final_prediction [0.3; 0.8; 0.5] t) i = Some true /\
     final_prediction [0.3; 0.8; 0.5] t <> y_pred_at [0.3; 0.8; 0.5] t).
Proof.
  apply (@selected_threshold_is_reported_positive costbenefit costbenefit
           [0.3; 0.8; 0.5] [0; 1; 1]%Z).
  - reflexivity.
  - cbn; lia.
  - unfold binary_labels. repeat (constructor; [lia|]). constructor.
  - cbn. lia.
Defined.

Lemma profit_curve_shape_witness :
  exists thresholds profits,
    profit_curve costbenefit costbenefit [0.3; 0.8; 0.5; 0.8] [0; 1; 1; 0]%Z
      = Ok (thresholds, profits) /\
    length thresholds = length [0.3; 0.8; 0.5; 0.8] /\
    length profits = length [0.3; 0.8; 0.5; 0.8] /\
    non_increasing thresholds = true /\
    Permutation [0.3; 0.8; 0.5; 0.8] thresholds.
Proof.
  apply (@profit_curve_shape costbenefit costbenefit [0.3; 0.8; 0.5; 0.8] [0; 1; 1; 0]%Z).
  - reflexivity.
  - repeat (constructor; [reflexivity|]). constructor.
  - unfold binary_labels. repeat (constructor; [lia|]). constructor.
  - cbn. lia.
Defined.

(** ** Exchanging the arguments, reordering the observations *)

Lemma count_pairs_swap (a b : Z) (ys ps : list Z) :
  count_pairs a b (combine ps ys) = count_pairs b a (combine ys ps).
Proof.
  revert ps. induction ys as [|y ys IH]; intros [|p ps]; try reflexivity.
  cbn [combine]. rewrite !count_pairs_cons, IH. cbn [fst snd].
  now rewrite andb_comm.
Qed.

(** X12: calling [standard_confusion_matrix] with its two arguments
    exchanged transposes the result: when [(y_true, y_predict)] gives
    [[tp, fp], [fn, tn]], [(y_predict, y_true)] gives
    [[tp, fn], [fp, tn]]. *)
Theorem standard_confusion_matrix_swap
    (y_true y_predict : list Z) (cm : array2x2 Z) :
  standard_confusion_matrix y_true y_predict = Ok cm ->
  standard_confusion_matrix y_predict y_true
    = Ok (Array2x2 (a00 cm) (a10 cm) (a01 cm) (a11 cm)).
Proof.
  intros H. apply standard_confusion_matrix_inv in H as (Hlen & a & b & Hl & ->).
  cbn [a00 a01 a10 a11].
  assert (Hab : (a < b)%Z).
  { pose proof (unique_labels_sorted y_true y_predict) as Hs. rewrite Hl in Hs.
    inversion Hs as [|? ? _ Ha]; subst. now inversion Ha. }
  assert (Hin : forall z, In z (unique_labels y_true y_predict) <-> z = a \/ z = b).
  { intros z. rewrite Hl. cbn. intuition. }
  assert (Hl' : unique_labels y_predict y_true = [a; b]).
  { apply unique_labels_pair; [assumption | | |].
    - intros z Hz. apply Hin, unique_labels_In. tauto.
    - assert (Ha : In a (unique_labels y_true y_predict)) by (apply Hin; auto).
      apply unique_labels_In in Ha. tauto.
    - assert (Hb : In b (unique_labels y_true y_predict)) by (apply Hin; auto).
      apply unique_labels_In in Hb. tauto. }
  rewrite (standard_confusion_matrix_two _ _ (eq_sym Hlen) Hl'). cbn zeta.
  now rewrite !(count_pairs_swap _ _ y_true y_predict).
Qed.

Lemma standard_confusion_matrix_swap_witness :
  standard_confusion_matrix [1; 0; 1; 1]%Z [1; 1; 0; 0]%Z
    = Ok (Array2x2 (a00 (Array2x2 1 2 1 0)) (a10 (Array2x2 1 2 1 0))
                   (a01 (Array2x2 1 2 1 0)) (a11 (Array2x2 1 2 1 0)))%Z.
Proof.
  apply (@standard_confusion_matrix_swap [1; 1; 0; 0]%Z [1; 0; 1; 1]%Z
           (Array2x2 1 2 1 0)%Z).
  vm_compute. reflexivity.
Defined.

Lemma sorted_labels_unique (l l' : list Z) :
  StronglySorted Z.lt l -> StronglySorted Z.lt l' ->
  (forall z, In z l <-> In z l') -> l = l'.
Proof.
  intros Hs. revert l'. induction Hs as [|x l Hs IH Hx]; intros l' Hs' Heq.
  - destruct l' as [|y l']; [reflexivity|].
    exfalso. apply (proj2 (Heq y)). now left.
  - rewrite Forall_forall in Hx.
    destruct Hs' as [|y l' Hs' Hy].
    { exfalso. apply (proj1 (Heq x)). now left. }
    rewrite Forall_forall in Hy.
    assert (x = y).
    { destruct (proj1 (Heq x) (or_introl eq_refl)) as [->|Hxl']; [reflexivity|].
      destruct (proj2 (Heq y) (or_introl eq_refl)) as [->|Hyl]; [reflexivity|].
      specialize (Hx y Hyl). specialize (Hy x Hxl'). lia. }
    subst y. f_equal. apply IH; [assumption|].
    intros z. split; intros Hz.
    + destruct (proj1 (Heq z) (or_intror Hz)) as [<-|]; [|assumption].
      specialize (Hx x Hz). lia.
    + destruct (proj2 (Heq z) (or_intror Hz)) as [<-|]; [|assumption].
      specialize (Hy x Hz). lia.
Qed.

Lemma map_fst_combine {A B : Type} (l : list A) (l' : list B) :
  length l = length l' -> map fst (combine l l') = l.
Proof.
  revert l'. induction l as [|x l IH]; intros [|y l'] H; try discriminate; [reflexivity|].
  cbn. f_equal. apply IH. now injection H.
Qed.

Lemma map_snd_combine {A B : Type} (l : list A) (l' : list B) :
  length l = length l' -> map snd (combine l l') = l'.
Proof.
  revert l'. induction l as [|x l IH]; intros [|y l'] H; try discriminate; [reflexivity|].
  cbn. f_equal. apply IH. now injection H.
Qed.

Lemma combine_y_pred_at (Y : list Z) (P : list float) (t : float) :
  combine Y (bool_labels (y_pred_at P t))
  = map (fun yp => (fst yp, Z.b2z (np_gt (snd yp) t))) (combine Y P).
Proof.
  revert P. unfold bool_labels, y_pred_at.
  induction Y as [|y Y IH]; intros [|p P]; try reflexivity.
  cbn. f_equal. apply IH.
Qed.

(** X13: the matrix built at a threshold, and so the profit computed
    there, does not depend on the order of the observations: reordering
    labels and probabilities together leaves both unchanged. *)
Theorem sweep_matrix_order_independent
    (g : array2x2 Z) (P P' : list float) (Y Y' : list Z) (t : float) :
  length P = length Y -> length P' = length Y' ->
  Permutation (combine Y P) (combine Y' P') ->
  standard_confusion_matrix Y (bool_labels (y_pred_at P t))
    = standard_confusion_matrix Y' (bool_labels (y_pred_at P' t)) /\
  (forall p, profit_at g P Y t p <-> profit_at g P' Y' t p).
Proof.
  intros Hlen Hlen' Hperm.
  assert (Hscm : standard_confusion_matrix Y (bool_labels (y_pred_at P t))
                 = standard_confusion_matrix Y' (bool_labels (y_pred_at P' t))).
  { unfold standard_confusion_matrix. f_equal. unfold confusion_matrix.
    rewrite !y_pred_at_length, <- Hlen, <- Hlen', !Nat.eqb_refl.
    assert (Hobs : Permutation (combine Y (bool_labels (y_pred_at P t)))
                               (combine Y' (bool_labels (y_pred_at P' t)))).
    { rewrite !combine_y_pred_at. now apply Permutation_map. }
    assert (Hl : unique_labels Y (bool_labels (y_pred_at P t))
                 = unique_labels Y' (bool_labels (y_pred_at P' t))).
    { apply sorted_labels_unique; try apply unique_labels_sorted.
      intros z. rewrite !unique_labels_In.
      rewrite <- (map_fst_combine Y (bool_labels (y_pred_at P t)))
        by (now rewrite y_pred_at_length).
      rewrite <- (map_snd_combine Y (bool_labels (y_pred_at P t))) at 2
        by (now rewrite y_pred_at_length).
      rewrite <- (map_fst_combine Y' (bool_labels (y_pred_at P' t)))
        by (now rewrite y_pred_at_length).
      rewrite <- (map_snd_combine Y' (bool_labels (y_pred_at P' t))) at 2
        by (now rewrite y_pred_at_length).
      pose proof (Permutation_map fst Hobs) as Hf.
      pose proof (Permutation_map snd Hobs) as Hs.
      split; (intros [Hz|Hz]; [left | right]);
        (eapply Permutation_in; [|exact Hz]); auto using Permutation_sym. }
    rewrite Hl. f_equal.
    apply map_ext. intros i. apply map_ext. intros j.
    unfold count_pairs. f_equal. now apply filter_length_perm. }
  split; [exact Hscm|].
  intros p. unfold profit_at. now rewrite Hscm.
Qed.

Lemma sweep_matrix_order_independent_witness :
  standard_confusion_matrix [1; 1; 0; 0]%Z (bool_labels (y_pred_at [0.9; 0.6; 0.4; 0.1] 0.4))
    = standard_confusion_matrix [0; 1; 0; 1]%Z (bool_labels (y_pred_at [0.1; 0.6; 0.4; 0.9] 0.4)) /\
  (forall p, profit_at costbenefit [0.9; 0.6; 0.4; 0.1] [1; 1; 0; 0]%Z 0.4 p
         <-> profit_at costbenefit [0.1; 0.6; 0.4; 0.9] [0; 1; 0; 1]%Z 0.4 p).
Proof.
  apply (@sweep_matrix_order_independent costbenefit
           [0.9; 0.6; 0.4; 0.1] [0.1; 0.6; 0.4; 0.9] [1; 1; 0; 0]%Z [0; 1; 0; 1]%Z 0.4).
  - reflexivity.
  - reflexivity.
  - cbn [combine].
    apply Permutation_trans with
      [(1%Z, 0.9); (1%Z, 0.6); (0%Z, 0.1); (0%Z, 0.4)]; [repeat constructor|].
    apply Permutation_trans with
      [(1%Z, 0.9); (0%Z, 0.1); (1%Z, 0.6); (0%Z, 0.4)]; [repeat constructor|].
    apply Permutation_trans with
      [(0%Z, 0.1); (1%Z, 0.9); (1%Z, 0.6); (0%Z, 0.4)]; [repeat constructor|].
    apply Permutation_trans with
      [(0%Z, 0.1); (1%Z, 0.6); (1%Z, 0.9); (0%Z, 0.4)]; [repeat constructor|].
    apply Permutation_trans with
      [(0%Z, 0.1); (1%Z, 0.6); (0%Z, 0.4); (1%Z, 0.9)]; repeat constructor.
Defined.

(** ** What the returned profits are divided by *)

Lemma Forall2_impl_In {A B : Type} (R R' : A -> B -> Prop) (l : list A) (l' : list B) :
  (forall a b, In a l -> R a b -> R' a b) -> Forall2 R l l' -> Forall2 R' l l'.
Proof.
  intros H Hall. induction Hall as [|a b l l' Hab _ IH]; constructor.
  - apply H; [now left | assumption].
  - apply IH. intros a' b' Hin. apply H. now right.
Qed.

(** X15: for equal-length inputs with N observations (0 < N < 2^63) and
    0/1 labels containing a positive one, [profit_curve] returns N
    profits; at every swept threshold the matrix built is
    [[TP, FP], [FN, TN]], its four cells add up to N, and the profit
    returned for that threshold is line 98 evaluated on that matrix with
    the divisor float(N), which is a float above zero. *)
Theorem profit_curve_divides_by_N (g CB : array2x2 Z) (P : list float) (Y : list Z) :
  length P = length Y -> (0 < length P)%nat ->
  (Z.of_nat (length P) < 2 ^ 63)%Z ->
  binary_labels Y -> In 1%Z Y ->
  exists profits,
    profit_curve g CB P Y = Ok (sorted_reverse P, profits) /\
    length profits = length P /\
    Forall2
      (fun t p =>
         exists cm,
           standard_confusion_matrix Y (bool_labels (y_pred_at P t)) = Ok cm /\
           cm = Array2x2 (true_positives Y (bool_labels (y_pred_at P t)))
                         (false_positives Y (bool_labels (y_pred_at P t)))
                         (false_negatives Y (bool_labels (y_pred_at P t)))
                         (true_negatives Y (bool_labels (y_pred_at P t))) /\
           (a00 cm + a01 cm + a10 cm + a11 cm)%Z = Z.of_nat (length P) /\
           p = normalized_profit g cm (float_of_Z (Z.of_nat (length P))))
      (sorted_reverse P) profits /\
    PrimFloat.ltb 0 (float_of_Z (Z.of_nat (length P))) = true.
Proof.
  intros Hlen Hpos HN Hbin H1.
  destruct (@profit_curve_returns g CB P Y Hlen Hbin H1) as (ps & Hps & Hall).
  exists ps. split; [exact Hps|].
  split; [rewrite <- (Forall2_length Hall); apply sorted_reverse_length|].
  split; [|apply float_of_Z_pos; lia].
  eapply Forall2_impl_In; [|exact Hall].
  intros t p Ht Hat. apply (proj1 (@sorted_reverse_In _ _)) in Ht.
  destruct (profit_at_divided Hat) as (cm & Hcm & Htot & Hp).
  exists cm. split; [exact Hcm|].
  pose proof (@sweep_matrix_built P Y t Hlen Hbin H1 Ht) as Hbuilt. cbn zeta in Hbuilt.
  rewrite Hcm in Hbuilt. injection Hbuilt as Hbuilt.
  split; [exact Hbuilt|]. split; [exact Htot | exact Hp].
Qed.

Lemma profit_curve_divides_by_N_witness :
  exists profits,
    profit_curve costbenefit costbenefit [0.3; 0.8; 0.5] [0; 1; 1]%Z
      = Ok (sorted_reverse [0.3; 0.8; 0.5], profits) /\
    length profits = length [0.3; 0.8; 0.5] /\
    Forall2
      (fun t p =>
         exists cm,
           standard_confusion_matrix [0; 1; 1]%Z (bool_labels (y_pred_at [0.3; 0.8; 0.5] t))
             = Ok cm /\
           cm = Array2x2
                  (true_positives [0; 1; 1]%Z (bool_labels (y_pred_at [0.3; 0.8; 0.5] t)))
                  (false_positives [0; 1; 1]%Z (bool_labels (y_pred_at [0.3; 0.8; 0.5] t)))
                  (false_negatives [0; 1; 1]%Z (bool_labels (y_pred_at [0.3; 0.8; 0.5] t)))
                  (true_negatives [0; 1; 1]%Z (bool_labels (y_pred_at [0.3; 0.8; 0.5] t))) /\
           (a00 cm + a01 cm + a10 cm + a11 cm)%Z = Z.of_nat (length [0.3; 0.8; 0.5]) /\
           p = normalized_profit costbenefit cm
                 (float_of_Z (Z.of_nat (length [0.3; 0.8; 0.5]))))
      (sorted_reverse [0.3; 0.8; 0.5]) profits /\
    PrimFloat.ltb 0 (float_of_Z (Z.of_nat (length [0.3; 0.8; 0.5]))) = true.
Proof.
  apply (@profit_curve_divides_by_N costbenefit costbenefit [0.3; 0.8; 0.5] [0; 1; 1]%Z).
  - reflexivity.
  - cbn; lia.
  - cbn; lia.
  - unfold binary_labels. repeat (constructor; [lia|]). constructor.
  - cbn. lia.
Defined.
